(** * bidscoin [bids.py]: the tag resolver and the series matcher

    A shallow embedding of [exist_series], [parse_from_x_protocol] and
    [get_dicomfield] of [bids.py], with the properties of the two components
    the specification calls TagResolver and SeriesMatcher.

    Python text ([str]) is held as a Rocq [string] carrying its UTF-8
    encoding, raw file contents ([bytes]) as [list byte].  Exceptions are the
    [Raise] outcomes of an error monad; the two module globals, the emitted
    warnings and the calls made to the DICOM parser are the fields of an
    explicit state. *)

From Stdlib Require Import ZArith NArith List Bool Lia.
From Stdlib Require Import Strings.String Strings.Ascii Strings.Byte.
From stdpp Require Import base option list strings gmap.

(** ** Exceptions and outcomes *)

(** The Python exceptions that the modelled code can meet.  [IOError] stands
    for [OSError] and its subclasses, which is what [except IOError]
    catches. *)
Inductive exn : Type :=
  | KeyError
  | TypeError
  | AttributeError
  | IOError
  | InvalidDicomError
  | ValueError
  | UnicodeDecodeError
  | UnboundLocalError.

Global Instance exn_eq_dec : EqDecision exn.
Proof. solve_decision. Defined.

(** The result of evaluating an expression or a call: a value, or a raised
    exception. *)
Inductive outcome (A : Type) : Type :=
  | Ret (a : A)
  | Raise (e : exn).
Arguments Ret {A} a.
Arguments Raise {A} e.

Global Instance outcome_ret : MRet outcome := @Ret.
Global Instance outcome_bind : MBind outcome := λ A B f m,
  match m with
  | Ret a => f a
  | Raise e => Raise e
  end.

(** ** Stateful computations

    [M S A]: a computation over a state [S] that returns an [A] or raises,
    and leaves a state behind in both cases. *)
Definition M (S A : Type) : Type := S → outcome A * S.

Global Instance M_ret {S : Type} : MRet (M S) := λ A a s, (Ret a, s).
Global Instance M_bind {S : Type} : MBind (M S) := λ A B k m s,
  match m s with
  | (Ret a, s') => k a s'
  | (Raise e, s') => (Raise e, s')
  end.

Definition raise {S A : Type} (e : exn) : M S A := λ s, (Raise e, s).

(** An expression that does not touch the state. *)
Definition lift {S A : Type} (o : outcome A) : M S A := λ s, (o, s).

(** [try: m  except ...: handler e] *)
Definition try_except {S A : Type} (m : M S A) (handler : exn → M S A)
  : M S A := λ s,
  match m s with
  | (Ret a, s') => (Ret a, s')
  | (Raise e, s') => handler e s'
  end.

(** ** Python values and dictionaries *)

(** The values a series record holds: the YAML scalars [None], integers and
    text. *)
Inductive scalar : Type :=
  | SNone
  | SInt (z : Z)
  | SStr (s : string).

Global Instance scalar_eq_dec : EqDecision scalar.
Proof. solve_decision. Defined.

(** A Python [dict] with text keys, in insertion order.  [d[k]] reads the
    entry stored under [k]. *)
Definition dict (V : Type) : Type := list (string * V).

Fixpoint dict_get {V : Type} (d : dict V) (k : string) : option V :=
  match d with
  | [] => None
  | (k', v) :: d' => if String.eqb k k' then Some v else dict_get d' k
  end.

Definition dict_keys {V : Type} (d : dict V) : list string := map fst d.

(** [d1 == d2] on dictionaries of scalars: the same keys with equal
    values, whatever the insertion order. *)
Definition dict_eqb (d1 d2 : dict scalar) : bool :=
  forallb (λ k, bool_decide (dict_get d1 k = dict_get d2 k))
          (dict_keys d1 ++ dict_keys d2).

(** What is stored under a key of a series record: the attribute dictionary
    (under ['attributes']) or a scalar (a BIDS label). *)
Inductive field : Type :=
  | Attributes (a : dict scalar)
  | Label (v : scalar).

(** [x == y] on the values of a series record. *)
Definition py_eq (x y : field) : bool :=
  match x, y with
  | Label v, Label w => bool_decide (v = w)
  | Attributes a, Attributes b => dict_eqb a b
  | _, _ => false
  end.

(** [r[k]] on a series record: [KeyError] when the key is missing. *)
Definition getitem (r : dict field) (k : string) : outcome field :=
  match dict_get r k with
  | Some f => Ret f
  | None => Raise KeyError
  end.

(** [f[k]] on a value of a series record: a scalar cannot be subscripted by
    text. *)
Definition subscript (f : field) (k : string) : outcome scalar :=
  match f with
  | Attributes a =>
      match dict_get a k with
      | Some v => Ret v
      | None => Raise KeyError
      end
  | Label _ => Raise TypeError
  end.

(** The characters of a text, each as a text of length one (the bytes of
    its encoding, for a text that is not ASCII: all that matters below is
    whether there is one). *)
Fixpoint chars (s : string) : list string :=
  match s with
  | EmptyString => []
  | String c s' => String c EmptyString :: chars s'
  end.

(** [for k in f]: the keys of a dictionary, the characters of a text;
    [None] and integers are not iterable. *)
Definition iterate (f : field) : outcome (list string) :=
  match f with
  | Attributes a => Ret (dict_keys a)
  | Label (SStr s) => Ret (chars s)
  | Label _ => Raise TypeError
  end.

(** ** [exist_series] *)

(** [series['attributes'][key]] *)
Definition attribute (series : dict field) (key : string) : outcome scalar :=
  a ← getitem series "attributes"; subscript a key.

(** [[series['attributes'][key] is not None for key in series['attributes']]] *)
Fixpoint not_none_list (series : dict field) (keys : list string)
  : outcome (list bool) :=
  match keys with
  | [] => Ret []
  | key :: keys' =>
      v ← attribute series key;
      bs ← not_none_list series keys';
      Ret (negb (bool_decide (v = SNone)) :: bs)
  end.

(** Line 316: the value [match] starts from, [any([...])]. *)
Definition initial_match (series : dict field) : outcome bool :=
  a ← getitem series "attributes";
  keys ← iterate a;
  bs ← not_none_list series keys;
  Ret (existsb id bs).

(** Lines 324-327: the loop over the attribute keys of [series]. *)
Fixpoint match_attributes (series item : dict field) (attrkeys : list string)
    (match_ : bool) : outcome bool :=
  match attrkeys with
  | [] => Ret match_
  | attrkey :: attrkeys' =>
      seriesvalue ← attribute series attrkey;
      itemvalue ← attribute item attrkey;
      match_attributes series item attrkeys'
        (match_ && bool_decide (seriesvalue = itemvalue))
  end.

(** Lines 322-333: the body of the [try] for one key of [series]. *)
Definition match_key (series item : dict field) (matchbidslabels : bool)
    (key : string) (match_ : bool) : outcome bool :=
  if String.eqb key "attributes" then
    a ← getitem series "attributes";
    attrkeys ← iterate a;
    match_attributes series item attrkeys match_
  else if matchbidslabels then
    seriesvalue ← getitem series key;
    itemvalue ← getitem item key;
    Ret (match_ && py_eq seriesvalue itemvalue)
  else Ret match_.

(** Lines 335-336: [except KeyError: match = False]. *)
Definition except_KeyError (r : outcome bool) : outcome bool :=
  match r with
  | Raise KeyError => Ret false
  | _ => r
  end.

(** Lines 319-339: the loop over the keys of [series], left at the first
    mismatch. *)
Fixpoint match_keys (series item : dict field) (matchbidslabels : bool)
    (keys : list string) (match_ : bool) : outcome bool :=
  match keys with
  | [] => Ret match_
  | key :: keys' =>
      m ← except_KeyError (match_key series item matchbidslabels key match_);
      if m : bool then match_keys series item matchbidslabels keys' m
      else Ret false
  end.

(** Lines 314-346. *)
Fixpoint exist_series (series : dict field) (serieslist : list (dict field))
    (matchbidslabels : bool) : outcome bool :=
  match serieslist with
  | [] => Ret false
  | item :: serieslist' =>
      match_ ← initial_match series;
      m ← match_keys series item matchbidslabels (dict_keys series) match_;
      if m : bool then Ret true
      else exist_series series serieslist' matchbidslabels
  end.

(** ** [exist_series] on shared objects

    Python passes [series] and [serieslist] by reference.
    [exist_series_call] is [exist_series] again, statement by statement, on a
    store of objects: every subscript and every loop reads the object behind
    a reference, and the call hands back the store it leaves, so that a write,
    if the function made one, would show there. *)

Definition addr : Type := nat.

(** The objects of the store: the series records and the lists of
    references to records, each kind under its own addresses.  A record may be
    referred to from several lists, and the candidate may be in the list. *)
Record store : Type := Store {
  records : addr → dict field;
  lists : addr → list addr;
}.

(** The record behind a reference. *)
Definition load_dict (x : addr) : M store (dict field) := λ h,
  (Ret (records h x), h).

(** The elements of the list behind a reference, as [for] visits them. *)
Definition load_list (x : addr) : M store (list addr) := λ h,
  (Ret (lists h x), h).

(** [x[k]] *)
Definition getitem_at (x : addr) (k : string) : M store field :=
  r ← load_dict x; lift (getitem r k).

(** [x['attributes'][key]] *)
Definition attribute_at (x : addr) (key : string) : M store scalar :=
  a ← getitem_at x "attributes"; lift (subscript a key).

Fixpoint not_none_list_at (series : addr) (keys : list string)
  : M store (list bool) :=
  match keys with
  | [] => mret []
  | key :: keys' =>
      v ← attribute_at series key;
      bs ← not_none_list_at series keys';
      mret (negb (bool_decide (v = SNone)) :: bs)
  end.

Definition initial_match_at (series : addr) : M store bool :=
  a ← getitem_at series "attributes";
  keys ← lift (iterate a);
  bs ← not_none_list_at series keys;
  mret (existsb id bs).

Fixpoint match_attributes_at (series item : addr) (attrkeys : list string)
    (match_ : bool) : M store bool :=
  match attrkeys with
  | [] => mret match_
  | attrkey :: attrkeys' =>
      seriesvalue ← attribute_at series attrkey;
      itemvalue ← attribute_at item attrkey;
      match_attributes_at series item attrkeys'
        (match_ && bool_decide (seriesvalue = itemvalue))
  end.

Definition match_key_at (series item : addr) (matchbidslabels : bool)
    (key : string) (match_ : bool) : M store bool :=
  if String.eqb key "attributes" then
    a ← getitem_at series "attributes";
    attrkeys ← lift (iterate a);
    match_attributes_at series item attrkeys match_
  else if matchbidslabels then
    seriesvalue ← getitem_at series key;
    itemvalue ← getitem_at item key;
    mret (match_ && py_eq seriesvalue itemvalue)
  else mret match_.

Definition except_KeyError_at (m : M store bool) : M store bool :=
  try_except m (λ e, match e with KeyError => mret false | _ => raise e end).

Fixpoint match_keys_at (series item : addr) (matchbidslabels : bool)
    (keys : list string) (match_ : bool) : M store bool :=
  match keys with
  | [] => mret match_
  | key :: keys' =>
      m ← except_KeyError_at (match_key_at series item matchbidslabels key match_);
      if m : bool then match_keys_at series item matchbidslabels keys' m
      else mret false
  end.

Fixpoint exist_series_loop (series : addr) (items : list addr)
    (matchbidslabels : bool) : M store bool :=
  match items with
  | [] => mret false
  | item :: items' =>
      match_ ← initial_match_at series;
      r ← load_dict series;
      m ← match_keys_at series item matchbidslabels (dict_keys r) match_;
      if m : bool then mret true
      else exist_series_loop series items' matchbidslabels
  end.

Definition exist_series_call (series serieslist : addr) (matchbidslabels : bool)
  : M store bool :=
  items ← load_list serieslist;
  exist_series_loop series items matchbidslabels.

(** ** Text and raw bytes *)

(** [s.encode('utf-8')] *)
Definition encode (s : string) : list byte := list_byte_of_string s.

Definition in_range (lo hi : N) (b : byte) : bool :=
  (lo <=? Byte.to_N b)%N && (Byte.to_N b <=? hi)%N.

(** The byte sequences the strict UTF-8 codec accepts: shortest forms only,
    no surrogates, nothing above U+10FFFF. *)
Fixpoint utf8_valid (bs : list byte) : bool :=
  match bs with
  | [] => true
  | b0 :: r0 =>
      if in_range 0 127 b0 then utf8_valid r0
      else if in_range 194 223 b0 then
        match r0 with
        | b1 :: r1 => in_range 128 191 b1 && utf8_valid r1
        | _ => false
        end
      else if in_range 224 239 b0 then
        match r0 with
        | b1 :: b2 :: r2 =>
            in_range (if in_range 224 224 b0 then 160 else 128)
                     (if in_range 237 237 b0 then 159 else 191) b1
            && in_range 128 191 b2 && utf8_valid r2
        | _ => false
        end
      else if in_range 240 244 b0 then
        match r0 with
        | b1 :: b2 :: b3 :: r3 =>
            in_range (if in_range 240 240 b0 then 144 else 128)
                     (if in_range 244 244 b0 then 143 else 191) b1
            && in_range 128 191 b2 && in_range 128 191 b3 && utf8_valid r3
        | _ => false
        end
      else false
  end.

(** [bs.decode('utf-8')] *)
Definition decode (bs : list byte) : outcome string :=
  if utf8_valid bs then Ret (string_of_list_byte bs)
  else Raise UnicodeDecodeError.

(** The lines of a file opened in binary mode, as [for line in openfile]
    yields them: each ends with its newline, but for a last line without
    one. *)
Fixpoint readlines (content : list byte) : list (list byte) :=
  match content with
  | [] => []
  | b :: content' =>
      if Byte.eqb b x0a then [b] :: readlines content'
      else match readlines content' with
           | [] => [[b]]
           | line :: lines => (b :: line) :: lines
           end
  end.

(** [needle in haystack] on bytes. *)
Fixpoint starts_with (prefix l : list byte) : bool :=
  match prefix, l with
  | [], _ => true
  | a :: prefix', b :: l' => Byte.eqb a b && starts_with prefix' l'
  | _ :: _, [] => false
  end.

Fixpoint contains (needle haystack : list byte) : bool :=
  starts_with needle haystack ||
  match haystack with
  | [] => false
  | _ :: haystack' => contains needle haystack'
  end.

(** ** The line pattern of the protocol dump *)

Definition tab : string := String "009"%char EmptyString.
Definition newline : string := String "010"%char EmptyString.

(** Line 217, the text of the regular expression: a caret, the pattern,
    a tab, ' = ', a tab, the group (any characters, greedy) and a newline. *)
Definition regexp (pattern : string) : string :=
  "^" +:+ pattern +:+ tab +:+ " = " +:+ tab +:+ "(.*)" +:+ newline.

(** The characters with a meaning of their own in a regular expression. *)
Definition metacharacters : list ascii :=
  list_ascii_of_string ".^$*+?{}[]\|()".

(** [pattern] stands for itself in a regular expression. *)
Definition regex_literal (pattern : string) : bool :=
  forallb (λ c, negb (existsb (Ascii.eqb c) metacharacters))
          (list_ascii_of_string pattern).

Fixpoint strip_prefix (prefix l : list byte) : option (list byte) :=
  match prefix, l with
  | [], _ => Some l
  | a :: prefix', b :: l' =>
      if Byte.eqb a b then strip_prefix prefix' l' else None
  | _ :: _, [] => None
  end.

(** The group and the newline after it: the bytes up to the first newline,
    which has to be there (a dot is any byte but a newline). *)
Fixpoint group_to_newline (l : list byte) : option (list byte) :=
  match l with
  | [] => None
  | b :: l' =>
      if Byte.eqb b x0a then Some []
      else g ← group_to_newline l'; Some (b :: g)
  end.

(** [re.compile(regexp.encode('utf-8')).match(line)], as its group 1, for a
    [pattern] that is [regex_literal]: the line starts with the bytes of
    the pattern and of the separator, and the group runs to the newline.
    A pattern with metacharacters is outside this model. *)
Definition regex_match (pattern : string) (line : list byte)
  : option (list byte) :=
  rest ← strip_prefix (encode (pattern +:+ tab +:+ " = " +:+ tab)) line;
  group_to_newline rest.

(** Lines 221-224: the group of the first line that matches. *)
Fixpoint first_match (pattern : string) (lines : list (list byte))
  : option (list byte) :=
  match lines with
  | [] => None
  | line :: lines' =>
      match regex_match pattern line with
      | Some group => Some group
      | None => first_match pattern lines'
      end
  end.

(** ** The DICOM reader and the state of the module *)

(** What [dicomdict.get] hands back, and what [get_dicomfield] returns:
    [None], an integer, a text, or another object ([MultiValue], a float,
    ...) given with the text [str] makes of it. *)
Inductive pyvalue : Type :=
  | PyNone
  | PyInt (z : Z)
  | PyStr (s : string)
  | PyOther (text : string).

Global Instance pyvalue_eq_dec : EqDecision pyvalue.
Proof. solve_decision. Defined.

(** A data element of a parsed file: its value, or one that pydicom cannot
    convert, so that reading it raises. *)
Inductive element : Type :=
  | Value (v : pyvalue)
  | Faulty (e : exn).

(** A pydicom [Dataset], by keyword. *)
Abbreviation dataset := (gmap string element).

(** [dicomdict.get(tagname)]: the default, [None], for a keyword the
    dataset does not have. *)
Definition dataset_get (dicomdict : dataset) (tagname : string)
  : outcome pyvalue :=
  match dicomdict !! tagname with
  | None => Ret PyNone
  | Some (Value v) => Ret v
  | Some (Faulty e) => Raise e
  end.

(** The files: their raw bytes ([None] when [open] fails), and what
    [pydicom.dcmread] makes of them. *)
Record world : Type := World {
  disk : string → option (list byte);
  dcmread : string → outcome dataset;
}.

(** The diagnostics of [warnings.warn]:
    - [NotSiemens]: 'This does not seem to be a Siemens DICOM file'
    - [PatternNotFound r f]: 'Pattern: "r" not found in: f', with the
      control characters of [r] escaped
    - [CannotRead f]: 'Cannot read' + f
    - [CouldNotExtract t f]: 'Could not extract t tag from f'. *)
Inductive warning : Type :=
  | NotSiemens
  | PatternNotFound (regexp dicomfile : string)
  | CannotRead (dicomfile : string)
  | CouldNotExtract (tagname dicomfile : string).

Global Instance warning_eq_dec : EqDecision warning.
Proof. solve_decision. Defined.

(** The two globals of the module, the warnings emitted so far and the files
    handed to [pydicom.dcmread] so far (both oldest first). *)
Record state : Type := State {
  DICOMDICT_MEMO : option dataset;
  DICOMFILE_MEMO : option string;
  warned : list warning;
  parsed : list string;
}.

(** The state the module is loaded in: lines 231-232. *)
Definition initial : state := State None None [] [].

Definition warn (x : warning) : M state () := λ st,
  (Ret (), State (DICOMDICT_MEMO st) (DICOMFILE_MEMO st)
                 (warned st ++ [x]) (parsed st)).

(** [pydicom.dcmread(dicomfile)] *)
Definition pydicom_dcmread (w : world) (dicomfile : string)
  : M state dataset := λ st,
  (dcmread w dicomfile,
   State (DICOMDICT_MEMO st) (DICOMFILE_MEMO st)
         (warned st) (parsed st ++ [dicomfile])).

(** [_DICOMDICT_MEMO = dicomdict; _DICOMFILE_MEMO = dicomfile] *)
Definition memoise (dicomdict : dataset) (dicomfile : string)
  : M state () := λ st,
  (Ret (), State (Some dicomdict) (Some dicomfile) (warned st) (parsed st)).

(** Reading a global. *)
Definition globals : M state state := λ st, (Ret st, st).

(** [open(file, 'rb')], read whole. *)
Definition open_rb (w : world) (file : string) : outcome (list byte) :=
  match disk w file with
  | Some content => Ret content
  | None => Raise IOError
  end.

(** ** [is_dicomfile_siemens], [parse_from_x_protocol], [get_dicomfield] *)

Definition is_dicomfile_siemens (w : world) (file : string) : outcome bool :=
  content ← open_rb w file;
  Ret (contains (encode "ASCCONV BEGIN") content).

(** Lines 214-227.  The result is a text or [None]. *)
Definition parse_from_x_protocol (w : world) (pattern dicomfile : string)
  : M state pyvalue :=
  siemens ← lift (is_dicomfile_siemens w dicomfile);
  (if siemens : bool then mret () else warn NotSiemens);;
  content ← lift (open_rb w dicomfile);
  match first_match pattern (readlines content) with
  | Some group => s ← lift (decode group); mret (PyStr s)
  | None => warn (PatternNotFound (regexp pattern) dicomfile);; mret PyNone
  end.

(** Lines 246-254: the body of the outer [try].  [dicomdict] is [None] only
    if the global is, and [None] has no [get]. *)
Definition lookup_tag (w : world) (tagname dicomfile : string)
  : M state pyvalue :=
  st ← globals;
  dicomdict ←
    (if bool_decide (Some dicomfile ≠ DICOMFILE_MEMO st) then
       dicomdict ← pydicom_dcmread w dicomfile;
       memoise dicomdict dicomfile;;
       mret (Some dicomdict)
     else mret (DICOMDICT_MEMO st));
  match dicomdict with
  | Some dicomdict => lift (dataset_get dicomdict tagname)
  | None => raise AttributeError
  end.

(** Lines 268-275, the cast to [int] or [str]: [int(value)] for an
    integer, and [str(value)] both for what is not a text ([None]
    included) and for a text. *)
Definition cast (value : pyvalue) : pyvalue :=
  match value with
  | PyInt z => PyInt z
  | PyNone => PyStr "None"
  | PyOther text => PyStr text
  | PyStr s => PyStr s
  end.

(** Lines 244-275.  The local [value] is [None] as long as nothing was
    assigned to it. *)
Definition get_dicomfield (w : world) (tagname dicomfile : string)
  : M state pyvalue :=
  value ← try_except
    (v ← lookup_tag w tagname dicomfile; mret (Some v))
    (λ e, match e with
          | IOError => warn (CannotRead dicomfile);; mret None
          | _ =>
              try_except
                (v ← parse_from_x_protocol w tagname dicomfile; mret (Some v))
                (λ _, warn (CouldNotExtract tagname dicomfile);;
                      mret (Some PyNone))
          end);
  match value with
  | Some v => mret (cast v)
  | None => raise UnboundLocalError
  end.

(** ** The notions the properties are stated with *)

(** The record has an attribute dictionary under ['attributes']. *)
Definition attributes_of (r : dict field) : option (dict scalar) :=
  match dict_get r "attributes" with
  | Some (Attributes a) => Some a
  | _ => None
  end.

(** What is under ['attributes'], if anything, is a dictionary. *)
Definition well_shaped (r : dict field) : bool :=
  match dict_get r "attributes" with
  | Some (Label _) => false
  | _ => true
  end.

(** Every value of the dictionary is [None]. *)
Definition all_absent (a : dict scalar) : bool :=
  forallb (λ kv, bool_decide (kv.2 = SNone)) a.

(** The two globals and the record of parser calls are the same in both
    states. *)
Definition same_cache (st st' : state) : Prop :=
  DICOMDICT_MEMO st' = DICOMDICT_MEMO st ∧
  DICOMFILE_MEMO st' = DICOMFILE_MEMO st ∧
  parsed st' = parsed st.

(** [st'] has the warnings of [st] and then [ws]. *)
Definition warns (st : state) (ws : list warning) (st' : state) : Prop :=
  same_cache st st' ∧ warned st' = warned st ++ ws.

(** The dataset that a call for [dicomfile] looks the tag up in: the
    memoised one for the memoised file, the freshly parsed one otherwise. *)
Definition consults (w : world) (dicomfile : string) (st : state)
    (d : dataset) : Prop :=
  if bool_decide (Some dicomfile ≠ DICOMFILE_MEMO st)
  then dcmread w dicomfile = Ret d
  else DICOMDICT_MEMO st = Some d.

(** ** Example records and files *)

(** Two records with the same attributes and the label [modality]: the
    scenario of the specification. *)
Definition anat : dict field :=
  [("attributes", Attributes [("a", SInt 1); ("b", SStr "x")]);
   ("modality", Label (SStr "anat"))].

Definition func : dict field :=
  [("attributes", Attributes [("a", SInt 1); ("b", SStr "x")]);
   ("modality", Label (SStr "func"))].

(** The same two with every attribute value [None]. *)
Definition anat_absent : dict field :=
  [("attributes", Attributes [("a", SNone); ("b", SNone)]);
   ("modality", Label (SStr "anat"))].

Definition func_absent : dict field :=
  [("attributes", Attributes [("a", SNone); ("b", SNone)]);
   ("modality", Label (SStr "func"))].

(** The raw bytes of a Siemens file: the protocol dump has [lRepetitions]
    and, twice, [SliceThickness]. *)
Definition scan_dump : list byte :=
  encode ("### ASCCONV BEGIN ###" +:+ newline +:+
          "lRepetitions" +:+ tab +:+ " = " +:+ tab +:+ "7" +:+ newline +:+
          "SliceThickness" +:+ tab +:+ " = " +:+ tab +:+ "2.5" +:+ newline +:+
          "SliceThickness" +:+ tab +:+ " = " +:+ tab +:+ "3.0" +:+ newline).

(** What pydicom reads from that file: no [SliceThickness], no
    [EchoTime]. *)
Definition scan_dataset : dataset :=
  {[ "PatientID" := Value (PyStr "sub01");
     "EchoNumbers" := Value (PyInt 2);
     "ImageType" := Value (PyOther "['ORIGINAL', 'PRIMARY']") ]}.

(** Three paths: [scan.dcm] is that file, [notes.txt] is a text file that
    pydicom rejects, and any other path cannot be opened. *)
Definition example_world : world :=
  World
    (λ file, if String.eqb file "scan.dcm" then Some scan_dump
             else if String.eqb file "notes.txt" then Some (encode "no dump")
             else None)
    (λ file, if String.eqb file "scan.dcm" then Ret scan_dataset
             else if String.eqb file "notes.txt" then Raise InvalidDicomError
             else Raise IOError).

(** The state after a first call for [scan.dcm]. *)
Definition after_scan : state :=
  (get_dicomfield example_world "PatientID" "scan.dcm" initial).2.

(** ** What [exist_series] decides *)

(** Line 316 for a candidate with the attribute dictionary [a]: one value
    at least is not [None]. *)
Definition any_present (a : dict scalar) : bool :=
  existsb (λ k, negb (bool_decide (dict_get a k = Some SNone))) (dict_keys a).

(** The earlier record has the attribute [k], with the value it has in
    [a]. *)
Definition attribute_agrees (a : dict scalar) (item : dict field)
    (k : string) : bool :=
  match dict_get a k, attributes_of item with
  | Some v, Some b => bool_decide (dict_get b k = Some v)
  | _, _ => false
  end.

(** The earlier record has the key, with a value equal to the
    candidate's. *)
Definition label_agrees (series item : dict field) (key : string) : bool :=
  match dict_get series key, dict_get item key with
  | Some f, Some g => py_eq f g
  | _, _ => false
  end.

(** What one key of the candidate asks of the earlier record. *)
Definition key_agrees (series : dict field) (a : dict scalar)
    (matchbidslabels : bool) (item : dict field) (key : string) : bool :=
  if String.eqb key "attributes"
  then forallb (attribute_agrees a item) (dict_keys a)
  else if matchbidslabels then label_agrees series item key
  else true.

(** The earlier record agrees with the candidate on every attribute of the
    candidate and, when the labels are matched, on every other key of the
    candidate. *)
Definition agrees (series : dict field) (a : dict scalar)
    (matchbidslabels : bool) (item : dict field) : bool :=
  forallb (key_agrees series a matchbidslabels item) (dict_keys series).

(** The same, said of the two records: every attribute of the candidate
    (whose attribute dictionary is [a]) is an attribute of the earlier record
    with the same value, and, when the labels are matched, every other key of
    the candidate is a key of the earlier record with an equal value. *)
Definition covers (series : dict field) (a : dict scalar)
    (matchbidslabels : bool) (item : dict field) : Prop :=
  (∀ k v, dict_get a k = Some v →
          ∃ b, attributes_of item = Some b ∧ dict_get b k = Some v) ∧
  (matchbidslabels = true →
   ∀ key f, key ≠ "attributes" → dict_get series key = Some f →
            ∃ g, dict_get item key = Some g ∧ py_eq f g = true).

(** ** The ways the lookup in the dataset raises *)

(** The body of the outer [try] of [get_dicomfield] raises [e]: the parser
    does, on a file that is not the memoised one; or reading the element
    does; or the file is the memoised one and the global holds no dataset. *)
Definition lookup_raises (w : world) (tagname dicomfile : string) (st : state)
    (e : exn) : Prop :=
  (DICOMFILE_MEMO st ≠ Some dicomfile ∧ dcmread w dicomfile = Raise e) ∨
  (∃ d : dataset, consults w dicomfile st d ∧ d !! tagname = Some (Faulty e)) ∨
  (DICOMFILE_MEMO st = Some dicomfile ∧ DICOMDICT_MEMO st = None ∧
   e = AttributeError).

(** Files that pydicom rejects: [export.ima] has the protocol dump of
    [scan_dump], [latin.ima] one whose value is not UTF-8 (a lone byte E9),
    [cut.ima] one whose last line has no newline; no other path can be
    opened. *)
Definition latin_dump : list byte :=
  encode ("ASCCONV BEGIN" +:+ newline +:+ "tProtocolName" +:+ tab +:+ " = "
          +:+ tab) ++ [xe9; x0a].

(** A file whose last line has no newline. *)
Definition cut_dump : list byte :=
  encode ("### ASCCONV BEGIN ###" +:+ newline)
  ++ encode ("lRepetitions" +:+ tab +:+ " = " +:+ tab +:+ "7").

Definition export_world : world :=
  World
    (λ file, if String.eqb file "export.ima" then Some scan_dump
             else if String.eqb file "latin.ima" then Some latin_dump
             else if String.eqb file "cut.ima" then Some cut_dump
             else None)
    (λ file, Raise InvalidDicomError).

(** ** Files and folders *)

Global Instance byte_eq_dec : EqDecision byte := Byte.byte_eq_dec.

(** What [os.path.isfile] and [os.listdir] answer. *)
Record folders : Type := Folders {
  isfile : string → bool;
  listdir : string → outcome (list string);
}.

(** [if x:] on what the file tests return: [True], [False], or the [None]
    of a call that ends without [return]. *)
Definition truthy (x : option bool) : bool :=
  match x with
  | Some true => true
  | _ => false
  end.

(** Lines 71-74: the four bytes at offset [0x80], which [read(4)] cuts
    short at the end of the file. *)
Definition is_dicomfile (fs : folders) (w : world) (file : string)
  : outcome (option bool) :=
  if isfile fs file then
    content ← open_rb w file;
    Ret (Some (bool_decide (take 4 (drop 128 content) = encode "DICM")))
  else Ret None.

(** Lines 96-99, 109-112 and 122-125: the file is opened and nothing is
    read. *)
Definition is_parfile (fs : folders) (w : world) (file : string)
  : outcome (option bool) :=
  if isfile fs file then _ ← open_rb w file; Ret (Some false) else Ret None.

Definition is_p7file (fs : folders) (w : world) (file : string)
  : outcome (option bool) :=
  if isfile fs file then _ ← open_rb w file; Ret (Some false) else Ret None.

Definition is_niftifile (fs : folders) (w : world) (file : string)
  : outcome (option bool) :=
  if isfile fs file then _ ← open_rb w file; Ret (Some false) else Ret None.

(** *** [os.path], as [posixpath] has it *)

Definition is_empty (p : string) : bool :=
  match p with
  | EmptyString => true
  | String _ _ => false
  end.

Definition starts_with_slash (p : string) : bool :=
  match p with
  | String c _ => Ascii.eqb c "/"
  | EmptyString => false
  end.

Fixpoint ends_with_slash (p : string) : bool :=
  match p with
  | EmptyString => false
  | String c EmptyString => Ascii.eqb c "/"
  | String _ p' => ends_with_slash p'
  end.

(** [os.path.join(a, b)] *)
Definition join (a b : string) : string :=
  if starts_with_slash b then b
  else if is_empty a || ends_with_slash a then a +:+ b
  else a +:+ "/" +:+ b.

(** [(p[:i], p[i+1:])] for [i = p.rfind(sep)], when [sep] is in [p]. *)
Fixpoint rsplit (sep : ascii) (p : string) : option (string * string) :=
  match p with
  | EmptyString => None
  | String c p' =>
      match rsplit sep p' with
      | Some (before, after) => Some (String c before, after)
      | None => if Ascii.eqb c sep then Some (EmptyString, p') else None
      end
  end.

(** [os.path.basename(p)] *)
Definition basename (p : string) : string :=
  match rsplit "/" p with
  | Some (_, after) => after
  | None => p
  end.

(** [p.rstrip('/')] *)
Fixpoint rstrip_slash (p : string) : string :=
  match p with
  | EmptyString => EmptyString
  | String c p' =>
      if is_empty (rstrip_slash p') && Ascii.eqb c "/" then EmptyString
      else String c (rstrip_slash p')
  end.

(** [os.path.dirname(p)]: what stands before the last component, without
    its trailing slashes unless it is made of slashes only. *)
Definition dirname (p : string) : string :=
  match rsplit "/" p with
  | Some (before, _) =>
      let head := before +:+ "/" in
      if is_empty (rstrip_slash head) then head else rstrip_slash head
  | None => EmptyString
  end.

Fixpoint all_dots (p : string) : bool :=
  match p with
  | EmptyString => true
  | String c p' => Ascii.eqb c "." && all_dots p'
  end.

(** [os.path.splitext(p)[1]]: from the last dot of the last component, if
    a character other than a dot stands before it in that component. *)
Definition extension (p : string) : string :=
  match rsplit "." (basename p) with
  | Some (stem, after) => if all_dots stem then EmptyString else "." +:+ after
  | None => EmptyString
  end.

(** *** The first file of a kind in a folder *)

(** The warnings of the four functions:
    - [CannotFindDicom folder]: 'Cannot find dicom files in:' + folder
    - [CannotFindPAR folder]: 'Cannot find PAR files in:' + folder
    - [CannotFindP7 folder]: 'Cannot find P7 files in:' + folder
    - [CannotFindNifti folder]: 'Cannot find nifti files in:' + folder *)
Inductive notice : Type :=
  | CannotFindDicom (folder : string)
  | CannotFindPAR (folder : string)
  | CannotFindP7 (folder : string)
  | CannotFindNifti (folder : string).

(** [for file in files: if test(...): return os.path.join(folder, file)] *)
Fixpoint first_file (test : string → outcome (option bool)) (folder : string)
    (files : list string) : outcome (option string) :=
  match files with
  | [] => Ret None
  | file :: files' =>
      x ← test file;
      if truthy x then Ret (Some (join folder file))
      else first_file test folder files'
  end.

(** After the loop: [warnings.warn(...); return None]. *)
Definition found_or_warn (found : option string) (x : notice)
  : M (list notice) (option string) :=
  match found with
  | Some path => mret (Some path)
  | None => λ log, (Ret None, log ++ [x])
  end.

(** Lines 153-158: the test is on the path joined to the folder. *)
Definition get_dicom_file (fs : folders) (w : world) (folder : string)
  : M (list notice) (option string) :=
  files ← lift (listdir fs folder);
  found ← lift (first_file (λ file, is_dicomfile fs w (join folder file))
                           folder files);
  found_or_warn found (CannotFindDicom folder).

(** Lines 167-172, 181-186 and 195-200: the test is on the bare name. *)
Definition get_par_file (fs : folders) (w : world) (folder : string)
  : M (list notice) (option string) :=
  files ← lift (listdir fs folder);
  found ← lift (first_file (is_parfile fs w) folder files);
  found_or_warn found (CannotFindPAR folder).

Definition get_p7_file (fs : folders) (w : world) (folder : string)
  : M (list notice) (option string) :=
  files ← lift (listdir fs folder);
  found ← lift (first_file (is_p7file fs w) folder files);
  found_or_warn found (CannotFindP7 folder).

Definition get_nifti_file (fs : folders) (w : world) (folder : string)
  : M (list notice) (option string) :=
  files ← lift (listdir fs folder);
  found ← lift (first_file (is_niftifile fs w) folder files);
  found_or_warn found (CannotFindNifti folder).

(** ** [get_heuristics] *)

(** What [get_heuristics] takes from outside: the path of the module
    ([__file__]), [os.path.abspath(os.path.expanduser(.))], and the opening
    and parsing of a YAML file. *)
Record loader (H : Type) : Type := Loader {
  module_file : string;
  abspath_expanduser : string → string;
  yaml_load : string → outcome H;
}.
Arguments Loader {H} _ _ _.
Arguments module_file {H} _.
Arguments abspath_expanduser {H} _ _.
Arguments yaml_load {H} _ _.

(** Lines 287-294, the path before it is made absolute.  [folder] is [None]
    when the argument is left out. *)
Definition heuristics_file (module_file yamlfile : string)
    (folder : option string) : string :=
  let folder :=
    match folder with
    | Some f => if is_empty f then module_file else f
    | None => module_file
    end in
  let yamlfile :=
    if is_empty (extension yamlfile) then yamlfile +:+ ".yaml"
    else yamlfile in
  if String.eqb (basename yamlfile) yamlfile
  then join (join (dirname folder) "heuristics") yamlfile
  else yamlfile.

(** Lines 287-302. *)
Definition get_heuristics {H : Type} (env : loader H) (yamlfile : string)
    (folder : option string) : outcome H :=
  yaml_load env
    (abspath_expanduser env (heuristics_file (module_file env) yamlfile folder)).

(** The character occurs in the text. *)
Fixpoint has_char (c : ascii) (p : string) : bool :=
  match p with
  | EmptyString => false
  | String c' p' => Ascii.eqb c' c || has_char c p'
  end.

(** The folder [get_heuristics] works with: the path of the module when
    the argument is left out or empty. *)
Definition folder_or_module (module_file : string) (folder : option string)
  : string :=
  match folder with
  | Some f => if is_empty f then module_file else f
  | None => module_file
  end.

(** The name with the suffix of lines 290-291. *)
Definition with_yaml (yamlfile : string) : string :=
  if is_empty (extension yamlfile) then yamlfile +:+ ".yaml" else yamlfile.

(** A folder with two entries, the second of which is a DICOM file, and
    the files of it. *)
Definition dicom_bytes : list byte :=
  repeat x00 128 ++ encode "DICM" ++ [x02; x00].

Definition session_folders : folders :=
  Folders
    (λ file, String.eqb file "/data/ses/notes.txt"
             || String.eqb file "/data/ses/0001.dcm")
    (λ folder, if String.eqb folder "/data/ses"
               then Ret ["notes.txt"; "0001.dcm"]
               else Raise IOError).

Definition session_world : world :=
  World
    (λ file, if String.eqb file "/data/ses/notes.txt" then Some (encode "todo")
             else if String.eqb file "/data/ses/0001.dcm" then Some dicom_bytes
             else None)
    (λ file, Raise InvalidDicomError).

(** The name has an extension, as [os.path.splitext] sees it: its last
    component is a stem with a character other than a dot in it, a dot, and a
    rest without a dot. *)
Definition has_extension (yamlfile : string) : Prop :=
  ∃ stem rest, basename yamlfile = stem +:+ "." +:+ rest ∧
               has_char "." rest = false ∧ all_dots stem = false.

(** A loader for a module installed in [/opt/bidscoin], with paths that
    are absolute already and one heuristics file. *)
Definition example_loader : loader string :=
  Loader "/opt/bidscoin/bids.py" (λ path, path)
    (λ path, if String.eqb path "/opt/bidscoin/heuristics/bidsmap.yaml"
             then Ret "the heuristics" else Raise IOError).

(** ** [cleanup_label]

    Here a text is the list of its code points.  What is alphanumeric beyond
    ASCII is a table of the Unicode database, and is taken as a parameter. *)

(** [c.isspace()], which is what [strip()] removes. *)
Definition isspace (c : N) : bool :=
  bool_decide (c ∈ [9; 10; 11; 12; 13; 28; 29; 30; 31; 32; 133; 160; 5760;
                    8192; 8193; 8194; 8195; 8196; 8197; 8198; 8199; 8200;
                    8201; 8202; 8232; 8233; 8239; 8287; 12288]%N).

(** [c.isalnum()]: the digits and the letters of ASCII, and beyond ASCII
    what the table says. *)
Definition isalnum (alnum_beyond : N → bool) (c : N) : bool :=
  if (c <? 128)%N
  then (48 <=? c)%N && (c <=? 57)%N || (65 <=? c)%N && (c <=? 90)%N
       || (97 <=? c)%N && (c <=? 122)%N
  else alnum_beyond c.

(** The class [\w] under [(?u)]: alphanumeric, or the underscore. *)
Definition word (alnum_beyond : N → bool) (c : N) : bool :=
  isalnum alnum_beyond c || (c =? 95)%N.

Fixpoint lstrip (label : list N) : list N :=
  match label with
  | [] => []
  | c :: label' => if isspace c then lstrip label' else label
  end.

(** [label.strip()] *)
Definition strip (label : list N) : list N :=
  rev (lstrip (rev (lstrip label))).

(** [label.replace(special, '.')] for a [special] of one character. *)
Definition replace (special : N) (label : list N) : list N :=
  map (λ c, if (c =? special)%N then 46%N else c) label.

(** [special_characters]: the space, the underscore and the hyphen. *)
Definition special_characters : list N := [32; 95; 45]%N.

(** Lines 361-366: the loop, and [re.sub] with a class that keeps the
    hyphen, the word characters and the dot. *)
Definition cleanup_label (alnum_beyond : N → bool) (label : list N) : list N :=
  let label :=
    fold_left (λ label special, replace special (strip label))
              special_characters label in
  map (λ c, if (c =? 45)%N || word alnum_beyond c || (c =? 46)%N
            then c else 46%N) label.

(** The code points of an ASCII text. *)
Definition codepoints (s : string) : list N :=
  map N_of_ascii (list_ascii_of_string s).

(** The text is empty or starts with a character that is not a space. *)
Definition starts_clean (label : list N) : bool :=
  match label with
  | [] => true
  | c :: _ => negb (isspace c)
  end.

(** What is left of a character: itself if it is alphanumeric, a dot
    otherwise. *)
Definition alnum_or_dot (alnum_beyond : N → bool) (c : N) : N :=
  if isalnum alnum_beyond c then c else 46%N.


(** * Properties *)

(** ** Dictionaries *)

Lemma dict_get_keys {V : Type} (d : dict V) (k : string) :
  k ∈ dict_keys d ↔ is_Some (dict_get d k).
Proof.
  induction d as [|[k' v] d IH]; simpl.
  - split; [intros H; inversion H | intros [? H]; discriminate].
  - destruct (String.eqb_spec k k') as [->|Hne].
    + split; [eauto | intros _; left].
    + rewrite <- IH. split.
      * intros H. inversion H; subst; [congruence | done].
      * intros H. by right.
Qed.

Lemma dict_get_elem {V : Type} (d : dict V) (k : string) (v : V) :
  dict_get d k = Some v → (k, v) ∈ d.
Proof.
  induction d as [|[k' v'] d IH]; simpl; [done|].
  destruct (String.eqb_spec k k') as [->|Hne].
  - intros [= ->]. left.
  - intros H. right. auto.
Qed.

(** ** The series matcher *)

Section matcher.
Context (series : dict field) (a : dict scalar).
Hypothesis Hseries : attributes_of series = Some a.

Lemma getitem_attributes : getitem series "attributes" = Ret (Attributes a).
Proof using Hseries.
  unfold attributes_of in Hseries. unfold getitem.
  destruct (dict_get series "attributes") as [[]|]; congruence.
Qed.

Lemma attribute_lookup (k : string) :
  attribute series k =
  match dict_get a k with Some v => Ret v | None => Raise KeyError end.
Proof using Hseries. unfold attribute. by rewrite getitem_attributes. Qed.

Lemma not_none_list_keys (keys : list string) :
  keys ⊆ dict_keys a →
  not_none_list series keys =
  Ret (map (λ k, negb (bool_decide (dict_get a k = Some SNone))) keys).
Proof using Hseries.
  induction keys as [|k keys IH]; intros Hsub; simpl; [done|].
  rewrite attribute_lookup.
  assert (Hk : k ∈ dict_keys a) by (apply Hsub; left).
  apply dict_get_keys in Hk as [v Hv]. rewrite Hv. simpl.
  rewrite IH by (intros x Hx; apply Hsub; by right). simpl.
  do 3 f_equal. apply bool_decide_ext. split; congruence.
Qed.

Lemma initial_match_any :
  initial_match series =
  Ret (existsb (λ k, negb (bool_decide (dict_get a k = Some SNone)))
               (dict_keys a)).
Proof using Hseries.
  unfold initial_match. rewrite getitem_attributes. simpl.
  rewrite not_none_list_keys by done. simpl. f_equal.
  induction (dict_keys a) as [|k ks IH]; simpl; [done|]. by rewrite IH.
Qed.
End matcher.

Lemma all_absent_lookup (a : dict scalar) (k : string) (v : scalar) :
  all_absent a = true → dict_get a k = Some v → v = SNone.
Proof.
  unfold all_absent. rewrite forallb_forall. intros Hall Hk.
  apply dict_get_elem, list_elem_of_In, Hall in Hk.
  by apply bool_decide_eq_true in Hk.
Qed.

Lemma initial_match_all_absent (series : dict field) (a : dict scalar) :
  attributes_of series = Some a → all_absent a = true →
  initial_match series = Ret false.
Proof.
  intros Hs Ha. rewrite (initial_match_any _ _ Hs). f_equal.
  apply not_true_is_false. intros Hex.
  apply existsb_exists in Hex as (k & Hk & Hv).
  apply list_elem_of_In, dict_get_keys in Hk as [v Hk].
  rewrite (all_absent_lookup _ _ _ Ha Hk) in Hk. rewrite Hk in Hv.
  by rewrite bool_decide_eq_true_2 in Hv.
Qed.

(** A record that is [well_shaped] answers an attribute lookup with a value
    or with [KeyError]. *)
Lemma attribute_well_shaped (item : dict field) (k : string) :
  well_shaped item = true →
  (∃ v, attribute item k = Ret v) ∨ attribute item k = Raise KeyError.
Proof.
  unfold well_shaped, attribute, getitem.
  destruct (dict_get item "attributes") as [[b|v]|]; simpl; try done; auto.
  destruct (dict_get b k); eauto.
Qed.

Lemma match_attributes_false (series item : dict field) (a : dict scalar)
    (keys : list string) :
  attributes_of series = Some a → keys ⊆ dict_keys a →
  well_shaped item = true →
  except_KeyError (match_attributes series item keys false) = Ret false.
Proof.
  intros Hs Hsub Hitem. induction keys as [|k keys IH]; simpl; [done|].
  rewrite (attribute_lookup _ _ Hs).
  assert (Hk : k ∈ dict_keys a) by (apply Hsub; left).
  apply dict_get_keys in Hk as [v ->]. simpl.
  destruct (attribute_well_shaped item k Hitem) as [[u ->]| ->]; simpl; [|done].
  apply IH. intros x Hx. apply Hsub. by right.
Qed.

(** Once [match] is false, the try block of any key leaves it false. *)
Lemma match_key_false (series item : dict field) (a : dict scalar)
    (matchbidslabels : bool) (key : string) :
  attributes_of series = Some a → well_shaped item = true →
  key ∈ dict_keys series →
  except_KeyError (match_key series item matchbidslabels key false) = Ret false.
Proof.
  intros Hs Hitem Hkey. unfold match_key.
  destruct (String.eqb key "attributes").
  - rewrite (getitem_attributes _ _ Hs). simpl.
    by apply (match_attributes_false _ _ a).
  - destruct matchbidslabels; [|done].
    apply dict_get_keys in Hkey as [f Hf]. unfold getitem. rewrite Hf. simpl.
    destruct (dict_get item key); done.
Qed.

Lemma match_keys_false (series item : dict field) (a : dict scalar)
    (matchbidslabels : bool) (keys : list string) :
  attributes_of series = Some a → well_shaped item = true →
  keys ⊆ dict_keys series →
  match_keys series item matchbidslabels keys false = Ret false.
Proof.
  intros Hs Hitem Hsub. destruct keys as [|key keys]; simpl; [done|].
  rewrite (match_key_false _ _ a) by (try done; apply Hsub; left). done.
Qed.

(** Whatever the earlier record is, a [match] that is false stays
    false. *)
Lemma match_attributes_from_false (series item : dict field)
    (keys : list string) (m : bool) :
  match_attributes series item keys false = Ret m → m = false.
Proof.
  induction keys as [|k keys IH]; simpl; [by intros [= <-]|].
  destruct (attribute series k) as [v|e]; simpl; [|done].
  destruct (attribute item k) as [u|e]; simpl; [|done]. exact IH.
Qed.

Lemma match_key_from_false (series item : dict field)
    (matchbidslabels : bool) (key : string) (m : bool) :
  except_KeyError (match_key series item matchbidslabels key false) = Ret m →
  m = false.
Proof.
  unfold match_key. destruct (String.eqb key "attributes").
  - destruct (getitem series "attributes") as [f|[]]; simpl;
      try done; try by intros [= <-].
    destruct (iterate f) as [keys|[]]; simpl; try done; try by intros [= <-].
    pose proof (match_attributes_from_false series item keys) as Hm.
    destruct (match_attributes series item keys false) as [m'|[]]; simpl;
      try done; try by intros [= <-].
    intros [= <-]. by apply Hm.
  - destruct matchbidslabels; [|by intros [= <-]].
    destruct (getitem series key) as [f|[]]; simpl;
      try done; try by intros [= <-].
    destruct (getitem item key) as [g|[]]; simpl;
      try done; by intros [= <-].
Qed.

Lemma match_keys_from_false (series item : dict field)
    (matchbidslabels : bool) (keys : list string) (m : bool) :
  match_keys series item matchbidslabels keys false = Ret m → m = false.
Proof.
  destruct keys as [|key keys]; simpl; [by intros [= <-]|].
  pose proof (match_key_from_false series item matchbidslabels key) as Hm.
  destruct (except_KeyError _) as [m'|e]; simpl; [|done].
  rewrite (Hm m' eq_refl). by intros [= <-].
Qed.

(** C4: a candidate whose attribute values are all [None] is never found,
    whatever the list of earlier records and whether or not the labels are
    matched: [exist_series] does not return [True], and on a list of series
    records it returns [False]. *)
Theorem exist_series_all_absent (series : dict field) (a : dict scalar)
    (serieslist : list (dict field)) (matchbidslabels : bool) :
  attributes_of series = Some a →
  all_absent a = true →
  exist_series series serieslist matchbidslabels ≠ Ret true ∧
  (Forall (λ item, well_shaped item = true) serieslist →
   exist_series series serieslist matchbidslabels = Ret false).
Proof.
  intros Hs Ha. split.
  - induction serieslist as [|item serieslist IH]; simpl; [done|].
    rewrite (initial_match_all_absent _ _ Hs Ha). simpl.
    pose proof (match_keys_from_false series item matchbidslabels
                  (dict_keys series)) as Hm.
    destruct (match_keys _ _ _ _ false) as [m|e]; simpl; [|done].
    by rewrite (Hm m eq_refl).
  - intros Hlist.
    induction Hlist as [|item serieslist Hitem _ IH]; simpl; [done|].
    rewrite (initial_match_all_absent _ _ Hs Ha). simpl.
    rewrite (match_keys_false _ _ a) by done. simpl. exact IH.
Qed.

(** Two records with the same attribute dictionary agree on every
    attribute. *)
Lemma match_attributes_same (series item : dict field) (a : dict scalar)
    (keys : list string) (match_ : bool) :
  attributes_of series = Some a → attributes_of item = Some a →
  keys ⊆ dict_keys a →
  match_attributes series item keys match_ = Ret match_.
Proof.
  intros Hs Hi Hsub. induction keys as [|k keys IH]; simpl; [done|].
  rewrite (attribute_lookup _ _ Hs), (attribute_lookup _ _ Hi).
  assert (Hk : k ∈ dict_keys a) by (apply Hsub; left).
  apply dict_get_keys in Hk as [v ->]. simpl.
  rewrite bool_decide_eq_true_2, andb_true_r by done.
  apply IH. intros x Hx. apply Hsub. by right.
Qed.

Lemma match_keys_unlabelled (series item : dict field) (a : dict scalar)
    (keys : list string) :
  attributes_of series = Some a → attributes_of item = Some a →
  match_keys series item false keys true = Ret true.
Proof.
  intros Hs Hi. induction keys as [|key keys IH]; simpl; [done|].
  unfold match_key. destruct (String.eqb key "attributes").
  - rewrite (getitem_attributes _ _ Hs). simpl.
    rewrite (match_attributes_same _ _ a) by done. simpl. exact IH.
  - simpl. exact IH.
Qed.

Lemma match_keys_label_differs (series item : dict field) (a : dict scalar)
    (key : string) (v w : scalar) (keys : list string) (match_ : bool) :
  attributes_of series = Some a → attributes_of item = Some a →
  dict_get series key = Some (Label v) → dict_get item key = Some (Label w) →
  v ≠ w → key ∈ keys → keys ⊆ dict_keys series →
  match_keys series item true keys match_ = Ret false.
Proof.
  intros Hs Hi Hv Hw Hne. revert match_.
  induction keys as [|k keys IH]; intros match_ Hin Hsub.
  - inversion Hin.
  - assert (Hrest : keys ⊆ dict_keys series)
      by (intros x Hx; apply Hsub; by right).
    assert (Hk : k ∈ dict_keys series) by (apply Hsub; left).
    simpl. unfold match_key. destruct (String.eqb_spec k "attributes") as [->|Hk'].
    + rewrite (getitem_attributes _ _ Hs). simpl.
      rewrite (match_attributes_same _ _ a) by done. simpl.
      destruct match_; [|done]. apply IH; [|done].
      inversion Hin; subst; [|done].
      unfold attributes_of in Hs. rewrite Hv in Hs. discriminate.
    + destruct (decide (k = key)) as [->|Hkk].
      * unfold getitem. rewrite Hv, Hw. simpl.
        rewrite bool_decide_eq_false_2, andb_false_r by done. done.
      * apply dict_get_keys in Hk as [f Hf]. unfold getitem. rewrite Hf. simpl.
        destruct (dict_get item k) as [g|]; simpl; [|done].
        destruct (match_ && py_eq f g); [|done].
        apply IH; [|done]. inversion Hin; subst; done.
Qed.

Lemma initial_match_present (series : dict field) (a : dict scalar)
    (k : string) (u : scalar) :
  attributes_of series = Some a → dict_get a k = Some u → u ≠ SNone →
  initial_match series = Ret true.
Proof.
  intros Hs Hk Hu. rewrite (initial_match_any _ _ Hs). f_equal.
  apply existsb_exists. exists k. split.
  - apply list_elem_of_In, dict_get_keys. eauto.
  - rewrite Hk. rewrite bool_decide_eq_false_2; [done | congruence].
Qed.

(** C6, amended: for a candidate and an earlier record with the same
    attribute dictionary, one value of which at least is not [None], and a
    label of the candidate that the earlier record has with another value,
    [exist_series] on the list of that one record returns [False] when the
    labels are matched and [True] when they are not. *)
Theorem exist_series_label_differs (series item : dict field) (a : dict scalar)
    (k key : string) (u v w : scalar) :
  attributes_of series = Some a →
  attributes_of item = Some a →
  dict_get a k = Some u → u ≠ SNone →
  dict_get series key = Some (Label v) →
  dict_get item key = Some (Label w) →
  v ≠ w →
  exist_series series [item] true = Ret false ∧
  exist_series series [item] false = Ret true.
Proof.
  intros Hs Hi Hk Hu Hv Hw Hne. simpl.
  rewrite (initial_match_present _ _ _ _ Hs Hk Hu). simpl. split.
  - rewrite (match_keys_label_differs _ _ a key v w); try done.
    apply dict_get_keys. eauto.
  - by rewrite (match_keys_unlabelled _ _ a).
Qed.

(** The first scenario of the specification: the same record, labels
    matched. *)
Example exist_series_same_record : exist_series func [func] true = Ret true.
Proof. reflexivity. Qed.

Lemma exist_series_label_differs_witness :
  attributes_of anat = Some [("a", SInt 1); ("b", SStr "x")] ∧
  attributes_of func = Some [("a", SInt 1); ("b", SStr "x")] ∧
  exist_series anat [func] true = Ret false ∧
  exist_series anat [func] false = Ret true.
Proof.
  split; [reflexivity|]. split; [reflexivity|].
  apply (exist_series_label_differs anat func
           [("a", SInt 1); ("b", SStr "x")] "a" "modality"
           (SInt 1) (SStr "anat") (SStr "func"));
    try reflexivity; discriminate.
Defined.

(** C6 as it is stated fails where the shared attribute values are all
    [None]: the labels are not matched, the attribute dictionaries are the
    same, and the candidate is still not found. *)
Lemma exist_series_label_ignored_counterexample :
  attributes_of anat_absent = attributes_of func_absent ∧
  dict_get anat_absent "modality" = Some (Label (SStr "anat")) ∧
  dict_get func_absent "modality" = Some (Label (SStr "func")) ∧
  exist_series anat_absent [func_absent] false = Ret false ∧
  exist_series anat_absent [func_absent] false ≠ Ret true.
Proof. by repeat split. Qed.

Lemma exist_series_all_absent_witness :
  attributes_of anat_absent = Some [("a", SNone); ("b", SNone)] ∧
  all_absent [("a", SNone); ("b", SNone)] = true ∧
  exist_series anat_absent [func_absent; anat_absent] true = Ret false.
Proof.
  split; [reflexivity|]. split; [reflexivity|].
  apply (exist_series_all_absent anat_absent [("a", SNone); ("b", SNone)]);
    [reflexivity | reflexivity | by repeat constructor].
Defined.

(** ** The call on shared objects *)

Lemma bind_run {S A B : Type} (m : M S A) (k : A → M S B) (s s' : S)
    (o : outcome A) :
  m s = (o, s') →
  (m ≫= k) s = match o with Ret a => k a s' | Raise e => (Raise e, s') end.
Proof. intros H. unfold mbind, M_bind. rewrite H. by destruct o. Qed.

Section call.
Context (h : store).

Lemma getitem_at_run x k : getitem_at x k h = (getitem (records h x) k, h).
Proof. unfold getitem_at. by rewrite (bind_run _ _ h h (Ret (records h x))). Qed.

Lemma attribute_at_run x k :
  attribute_at x k h = (attribute (records h x) k, h).
Proof.
  unfold attribute_at, attribute.
  rewrite (bind_run _ _ h h (getitem (records h x) "attributes"))
    by apply getitem_at_run.
  by destruct (getitem (records h x) "attributes").
Qed.

Lemma not_none_list_at_run x keys :
  not_none_list_at x keys h = (not_none_list (records h x) keys, h).
Proof.
  induction keys as [|k keys IH]; simpl; [done|].
  rewrite (bind_run _ _ h h (attribute (records h x) k))
    by apply attribute_at_run.
  destruct (attribute (records h x) k) as [v|e]; simpl; [|done].
  rewrite (bind_run _ _ h h (not_none_list (records h x) keys)) by done.
  by destruct (not_none_list (records h x) keys).
Qed.

Lemma initial_match_at_run x :
  initial_match_at x h = (initial_match (records h x), h).
Proof.
  unfold initial_match_at, initial_match.
  rewrite (bind_run _ _ h h (getitem (records h x) "attributes"))
    by apply getitem_at_run.
  destruct (getitem (records h x) "attributes") as [a|e]; simpl; [|done].
  rewrite (bind_run _ _ h h (iterate a)) by done.
  destruct (iterate a) as [keys|e]; simpl; [|done].
  rewrite (bind_run _ _ h h (not_none_list (records h x) keys))
    by apply not_none_list_at_run.
  by destruct (not_none_list (records h x) keys).
Qed.

Lemma match_attributes_at_run x y keys match_ :
  match_attributes_at x y keys match_ h
  = (match_attributes (records h x) (records h y) keys match_, h).
Proof.
  revert match_.
  induction keys as [|k keys IH]; intros match_; simpl; [done|].
  rewrite (bind_run _ _ h h (attribute (records h x) k))
    by apply attribute_at_run.
  destruct (attribute (records h x) k) as [v|e]; simpl; [|done].
  rewrite (bind_run _ _ h h (attribute (records h y) k))
    by apply attribute_at_run.
  destruct (attribute (records h y) k) as [u|e]; simpl; [|done].
  apply IH.
Qed.

Lemma match_key_at_run x y matchbidslabels key match_ :
  match_key_at x y matchbidslabels key match_ h
  = (match_key (records h x) (records h y) matchbidslabels key match_, h).
Proof.
  unfold match_key_at, match_key.
  destruct (String.eqb key "attributes").
  - rewrite (bind_run _ _ h h (getitem (records h x) "attributes"))
      by apply getitem_at_run.
    destruct (getitem (records h x) "attributes") as [a|e]; simpl; [|done].
    rewrite (bind_run _ _ h h (iterate a)) by done.
    destruct (iterate a) as [keys|e]; simpl; [|done].
    apply match_attributes_at_run.
  - destruct matchbidslabels; [|done].
    rewrite (bind_run _ _ h h (getitem (records h x) key))
      by apply getitem_at_run.
    destruct (getitem (records h x) key) as [f|e]; simpl; [|done].
    rewrite (bind_run _ _ h h (getitem (records h y) key))
      by apply getitem_at_run.
    by destruct (getitem (records h y) key).
Qed.

Lemma match_keys_at_run x y matchbidslabels keys match_ :
  match_keys_at x y matchbidslabels keys match_ h
  = (match_keys (records h x) (records h y) matchbidslabels keys match_, h).
Proof.
  revert match_.
  induction keys as [|k keys IH]; intros match_; simpl; [done|].
  rewrite (bind_run _ _ h h
    (except_KeyError
       (match_key (records h x) (records h y) matchbidslabels k match_))).
  - destruct (except_KeyError _) as [[]|e]; simpl; [apply IH|done|done].
  - unfold except_KeyError_at, try_except. rewrite match_key_at_run.
    by destruct (match_key _ _ matchbidslabels k match_) as [|[]].
Qed.

Lemma exist_series_loop_run x items matchbidslabels :
  exist_series_loop x items matchbidslabels h
  = (exist_series (records h x) (map (records h) items) matchbidslabels, h).
Proof.
  induction items as [|y items IH]; simpl; [done|].
  rewrite (bind_run _ _ h h (initial_match (records h x)))
    by apply initial_match_at_run.
  destruct (initial_match (records h x)) as [match_|e]; simpl; [|done].
  rewrite (bind_run _ _ h h (Ret (records h x))) by done.
  rewrite (bind_run _ _ h h
    (match_keys (records h x) (records h y) matchbidslabels
                (dict_keys (records h x)) match_))
    by apply match_keys_at_run.
  destruct (match_keys _ _ _ _ _) as [[]|e]; simpl; [done|apply IH|done].
Qed.

(** The call returns what [exist_series] returns on the record and the
    list of records behind the two references, and the store it was given. *)
Lemma exist_series_call_run series serieslist matchbidslabels :
  exist_series_call series serieslist matchbidslabels h
  = (exist_series (records h series)
                  (map (records h) (lists h serieslist)) matchbidslabels, h).
Proof.
  unfold exist_series_call.
  rewrite (bind_run _ _ h h (Ret (lists h serieslist))) by done.
  apply exist_series_loop_run.
Qed.

End call.

(** C9: a call of [exist_series] hands back the store of objects it was
    given, so that neither the list nor a record has changed, and a second
    call on the same arguments has the outcome of the first. *)
Theorem exist_series_call_read_only (h : store) (series serieslist : addr)
    (matchbidslabels : bool) :
  let first := exist_series_call series serieslist matchbidslabels h in
  let second := exist_series_call series serieslist matchbidslabels first.2 in
  first.2 = h ∧ second.1 = first.1 ∧ second.2 = h.
Proof.
  intros first second.
  assert (Hfirst : first.2 = h)
    by (subst first; by rewrite exist_series_call_run).
  subst second. rewrite Hfirst. by fold first.
Qed.

(** ** The tag resolver *)

Lemma warns_nil st : warns st [] st.
Proof. repeat split. by rewrite app_nil_r. Qed.

Lemma warns_warn st x : warns st [x] (warn x st).2.
Proof. by repeat split. Qed.

(** What [parse_from_x_protocol] does on a file that can be opened. *)
Lemma parse_from_x_protocol_run w pattern dicomfile st content :
  disk w dicomfile = Some content →
  ∃ st1,
    warns st (if contains (encode "ASCCONV BEGIN") content
              then [] else [NotSiemens]) st1 ∧
    parse_from_x_protocol w pattern dicomfile st =
    match first_match pattern (readlines content) with
    | Some group => (s ← decode group; Ret (PyStr s), st1)
    | None => (Ret PyNone,
               (warn (PatternNotFound (regexp pattern) dicomfile) st1).2)
    end.
Proof.
  intros Hdisk. unfold parse_from_x_protocol, is_dicomfile_siemens, open_rb.
  rewrite Hdisk. simpl. unfold mbind at 1, M_bind at 1, lift at 1. simpl.
  destruct (contains _ content).
  - exists st. split; [apply warns_nil|]. unfold mbind, M_bind. simpl.
    destruct (first_match _ _) as [group|]; [|done].
    unfold lift. by destruct (decode group).
  - exists (warn NotSiemens st).2. split; [apply warns_warn|].
    unfold mbind, M_bind. simpl.
    destruct (first_match _ _) as [group|]; [|done].
    unfold lift. by destruct (decode group).
Qed.

(** [parse_from_x_protocol] touches neither the globals nor the parser. *)
Lemma parse_from_x_protocol_same_cache w pattern dicomfile st :
  same_cache st (parse_from_x_protocol w pattern dicomfile st).2.
Proof.
  destruct (disk w dicomfile) as [content|] eqn:Hdisk.
  - destruct (parse_from_x_protocol_run w pattern dicomfile st content Hdisk)
      as (st1 & [Hc _] & ->).
    destruct (first_match _ _); [done|].
    destruct Hc as (? & ? & ?). by repeat split.
  - unfold parse_from_x_protocol, is_dicomfile_siemens, open_rb.
    rewrite Hdisk. by repeat split.
Qed.

(** The outer [try] when the file is not the memoised one: the parser is
    called, and the globals are assigned if it succeeds. *)
Lemma lookup_tag_fresh w tagname dicomfile st :
  DICOMFILE_MEMO st ≠ Some dicomfile →
  lookup_tag w tagname dicomfile st =
  match dcmread w dicomfile with
  | Ret d => (dataset_get d tagname,
              State (Some d) (Some dicomfile) (warned st)
                    (parsed st ++ [dicomfile]))
  | Raise e => (Raise e,
                State (DICOMDICT_MEMO st) (DICOMFILE_MEMO st) (warned st)
                      (parsed st ++ [dicomfile]))
  end.
Proof.
  intros Hne. unfold lookup_tag, mbind, M_bind, globals.
  rewrite bool_decide_eq_true_2 by congruence.
  unfold pydicom_dcmread. simpl.
  destruct (dcmread w dicomfile) as [d|e]; simpl; [|done].
  unfold lift. by destruct (dataset_get d tagname).
Qed.

(** The outer [try] when the file is the memoised one: no call of the
    parser, no assignment. *)
Lemma lookup_tag_cached w tagname dicomfile st :
  DICOMFILE_MEMO st = Some dicomfile →
  lookup_tag w tagname dicomfile st =
  (match DICOMDICT_MEMO st with
   | Some d => dataset_get d tagname
   | None => Raise AttributeError
   end, st).
Proof.
  intros Heq. unfold lookup_tag, mbind, M_bind, globals.
  rewrite bool_decide_eq_false_2 by (intros H; apply H; congruence).
  simpl. destruct (DICOMDICT_MEMO st) as [d|]; [|done].
  unfold lift. by destruct (dataset_get d tagname).
Qed.

(** [get_dicomfield] by the outcome of its outer [try]. *)
Lemma get_dicomfield_value w tagname dicomfile st v st1 :
  lookup_tag w tagname dicomfile st = (Ret v, st1) →
  get_dicomfield w tagname dicomfile st = (Ret (cast v), st1).
Proof.
  intros H. unfold get_dicomfield, try_except, mbind, M_bind. by rewrite H.
Qed.

Lemma get_dicomfield_IOError w tagname dicomfile st st1 :
  lookup_tag w tagname dicomfile st = (Raise IOError, st1) →
  get_dicomfield w tagname dicomfile st =
  (Raise UnboundLocalError, (warn (CannotRead dicomfile) st1).2).
Proof.
  intros H. unfold get_dicomfield, try_except, mbind, M_bind. by rewrite H.
Qed.

Lemma get_dicomfield_fallback w tagname dicomfile st e st1 :
  lookup_tag w tagname dicomfile st = (Raise e, st1) → e ≠ IOError →
  get_dicomfield w tagname dicomfile st =
  match parse_from_x_protocol w tagname dicomfile st1 with
  | (Ret v, st2) => (Ret (cast v), st2)
  | (Raise _, st2) =>
      (Ret (PyStr "None"), (warn (CouldNotExtract tagname dicomfile) st2).2)
  end.
Proof.
  intros H He. unfold get_dicomfield, try_except, mbind, M_bind. rewrite H.
  destruct e; try done;
    by destruct (parse_from_x_protocol w tagname dicomfile st1) as [[v|e'] st2].
Qed.

(** After [get_dicomfield], the globals and the record of parser calls are
    as its outer [try] left them. *)
Lemma get_dicomfield_same_cache w tagname dicomfile st :
  same_cache (lookup_tag w tagname dicomfile st).2
             (get_dicomfield w tagname dicomfile st).2.
Proof.
  destruct (lookup_tag w tagname dicomfile st) as [[v|e] st1] eqn:H.
  - by rewrite (get_dicomfield_value _ _ _ _ _ _ H).
  - destruct (decide (e = IOError)) as [->|He].
    + by rewrite (get_dicomfield_IOError _ _ _ _ _ H).
    + rewrite (get_dicomfield_fallback _ _ _ _ _ _ H He). simpl.
      pose proof (parse_from_x_protocol_same_cache w tagname dicomfile st1) as Hc.
      destruct (parse_from_x_protocol w tagname dicomfile st1) as [[v|e'] st2];
        simpl in *; [done|].
      destruct Hc as (? & ? & ?). by repeat split.
Qed.

(** A tag that the dataset does not have comes back as the text ['None'],
    without a warning and without a look at the protocol dump. *)
Lemma get_dicomfield_absent w tagname dicomfile st (d : dataset) :
  consults w dicomfile st d → d !! tagname = None →
  (get_dicomfield w tagname dicomfile st).1 = Ret (PyStr "None") ∧
  warned (get_dicomfield w tagname dicomfile st).2 = warned st.
Proof.
  unfold consults. intros Hd Habs.
  assert (∃ st1, lookup_tag w tagname dicomfile st = (Ret PyNone, st1) ∧
                 warned st1 = warned st) as (st1 & Hrun & Hw).
  { case_bool_decide as Hf.
    - rewrite lookup_tag_fresh, Hd by congruence.
      unfold dataset_get. rewrite Habs. eauto.
    - rewrite lookup_tag_cached, Hd by congruence.
      unfold dataset_get. rewrite Habs. eauto. }
  by rewrite (get_dicomfield_value _ _ _ _ _ _ Hrun).
Qed.

(** *** Lines and the line pattern *)

Lemma readlines_concat content : concat (readlines content) = content.
Proof.
  induction content as [|b content IH]; simpl; [done|].
  destruct (Byte.eqb b x0a); simpl; [by rewrite IH|].
  destruct (readlines content) as [|line lines]; simpl in *; by rewrite <- IH.
Qed.

Lemma byte_eqb_refl (b : byte) : Byte.eqb b b = true.
Proof. by apply Byte.byte_dec_lb. Qed.

Lemma strip_prefix_app prefix l : strip_prefix prefix (prefix ++ l) = Some l.
Proof.
  induction prefix as [|a prefix IH]; simpl; [done|].
  by rewrite byte_eqb_refl.
Qed.

Lemma strip_prefix_Some prefix l rest :
  strip_prefix prefix l = Some rest → l = prefix ++ rest.
Proof.
  revert l. induction prefix as [|a prefix IH]; intros [|b l]; simpl;
    try congruence.
  destruct (Byte.eqb a b) eqn:Hab; [|done].
  apply Byte.byte_dec_bl in Hab as ->. intros H. by rewrite (IH _ H).
Qed.

Lemma group_to_newline_app value rest :
  x0a ∉ value → group_to_newline (value ++ x0a :: rest) = Some value.
Proof.
  induction value as [|b value IH]; intros Hnl; simpl; [done|].
  destruct (Byte.eqb b x0a) eqn:Hb.
  - apply Byte.byte_dec_bl in Hb as ->. exfalso. apply Hnl. left.
  - rewrite IH; [done|]. intros H. apply Hnl. by right.
Qed.

Lemma group_to_newline_Some l value :
  group_to_newline l = Some value →
  (x0a ∉ value) ∧ (∃ rest, l = value ++ x0a :: rest).
Proof.
  revert value. induction l as [|b l IH]; intros value; simpl; [done|].
  destruct (Byte.eqb b x0a) eqn:Hb.
  - apply Byte.byte_dec_bl in Hb as ->. intros [= <-]. split; [|by eexists].
    intros H. inversion H.
  - destruct (group_to_newline l) as [g|]; simpl; [|done].
    intros [= <-]. destruct (IH g eq_refl) as [Hg [rest ->]]. split; [|by eexists].
    intros H. inversion H; subst; [|done].
    by rewrite byte_eqb_refl in Hb.
Qed.

(** A line matches, with [value] as its group, exactly when it is the
    pattern, a tab, ' = ', a tab, [value] without a newline in it, and a
    newline (and whatever follows). *)
Lemma regex_match_Some pattern line value :
  regex_match pattern line = Some value ↔
  (x0a ∉ value) ∧
  (∃ rest, line = encode (pattern +:+ tab +:+ " = " +:+ tab)
                  ++ value ++ x0a :: rest).
Proof.
  unfold regex_match. split.
  - destruct (strip_prefix _ line) as [l|] eqn:Hl; simpl; [|done].
    intros Hg. apply group_to_newline_Some in Hg as [Hnl [rest ->]].
    apply strip_prefix_Some in Hl. eauto.
  - intros [Hnl [rest ->]]. rewrite strip_prefix_app. simpl.
    by apply group_to_newline_app.
Qed.

Lemma first_match_at pattern lines i line group :
  lines !! i = Some line → regex_match pattern line = Some group →
  (∀ j line', j < i → lines !! j = Some line' →
              regex_match pattern line' = None) →
  first_match pattern lines = Some group.
Proof.
  revert i. induction lines as [|l lines IH]; intros i Hi Hm Hbefore; [done|].
  destruct i as [|i]; simpl in *.
  - injection Hi as ->. by rewrite Hm.
  - rewrite (Hbefore 0 l) by (done || lia).
    apply (IH i); [done..|].
    intros j line' Hj Hl. apply (Hbefore (S j)); [lia | done].
Qed.

Lemma first_match_None pattern lines :
  (∀ line, line ∈ lines → regex_match pattern line = None) →
  first_match pattern lines = None.
Proof.
  induction lines as [|l lines IH]; intros Hall; simpl; [done|].
  rewrite Hall by left. apply IH. intros line Hin. apply Hall. by right.
Qed.



(** C1, what the code does: for a tag without metacharacters that the
    dataset does not have and that the protocol dump has, on the first line
    of the form
    [tagname], tab, ' = ', tab, [value], newline, the pattern extraction on
    the same file returns the decoded [value], but [get_dicomfield] returns
    the text ['None'] and warns of nothing: [dicomdict.get] raises nothing
    for a keyword that is not there, so the fallback is not entered. *)
Theorem get_dicomfield_misses_protocol_dump w tagname dicomfile st
    (d : dataset) content i value text :
  regex_literal tagname = true →
  consults w dicomfile st d →
  d !! tagname = None →
  disk w dicomfile = Some content →
  readlines content !! i
  = Some (encode (tagname +:+ tab +:+ " = " +:+ tab) ++ value ++ [x0a]) →
  x0a ∉ value →
  (∀ j line', j < i → readlines content !! j = Some line' →
              regex_match tagname line' = None) →
  decode value = Ret text →
  (parse_from_x_protocol w tagname dicomfile st).1 = Ret (PyStr text) ∧
  (get_dicomfield w tagname dicomfile st).1 = Ret (PyStr "None") ∧
  warned (get_dicomfield w tagname dicomfile st).2 = warned st.
Proof.
  intros _ Hd Habs Hdisk Hline Hnl Hfirst Htext. split.
  - destruct (parse_from_x_protocol_run w tagname dicomfile st content Hdisk)
      as (st1 & _ & ->).
    rewrite (first_match_at tagname _ i _ value Hline); [by rewrite Htext| |done].
    apply regex_match_Some. split; [done|]. by exists [].
  - by apply (get_dicomfield_absent w tagname dicomfile st d).
Qed.

Lemma get_dicomfield_misses_protocol_dump_witness :
  (regex_literal "SliceThickness" = true ∧
   consults example_world "scan.dcm" initial scan_dataset ∧
   scan_dataset !! "SliceThickness" = None ∧
   readlines scan_dump !! 2
   = Some (encode ("SliceThickness" +:+ tab +:+ " = " +:+ tab)
           ++ encode "2.5" ++ [x0a])) ∧
  (parse_from_x_protocol example_world "SliceThickness" "scan.dcm" initial).1
  = Ret (PyStr "2.5") ∧
  (get_dicomfield example_world "SliceThickness" "scan.dcm" initial).1
  = Ret (PyStr "None") ∧
  warned (get_dicomfield example_world "SliceThickness" "scan.dcm" initial).2
  = warned initial.
Proof.
  split; [by repeat split|].
  apply (get_dicomfield_misses_protocol_dump example_world "SliceThickness"
           "scan.dcm" initial scan_dataset scan_dump 2 (encode "2.5") "2.5");
    try reflexivity.
  - intros H. repeat (apply elem_of_cons in H as [H|H]; [discriminate|]).
    by apply elem_of_nil in H.
  - intros [|[|j]] line' Hj Hl; [by injection Hl as <-..|lia].
Defined.

(** C2, what the code does: for a tag that the dataset does not have,
    whether or not a line of the protocol dump has it, [get_dicomfield]
    returns the text ['None'], not [None], and emits no warning at all. *)
Theorem get_dicomfield_not_found_silent w tagname dicomfile st
    (d : dataset) content :
  consults w dicomfile st d →
  d !! tagname = None →
  disk w dicomfile = Some content →
  first_match tagname (readlines content) = None →
  (get_dicomfield w tagname dicomfile st).1 = Ret (PyStr "None") ∧
  (get_dicomfield w tagname dicomfile st).1 ≠ Ret PyNone ∧
  warned (get_dicomfield w tagname dicomfile st).2 = warned st.
Proof.
  intros Hd Habs _ _.
  destruct (get_dicomfield_absent w tagname dicomfile st d Hd Habs) as [Hv Hw].
  rewrite Hv. by repeat split.
Qed.

Lemma get_dicomfield_not_found_silent_witness :
  (consults example_world "scan.dcm" initial scan_dataset ∧
   scan_dataset !! "EchoTime" = None ∧
   first_match "EchoTime" (readlines scan_dump) = None) ∧
  (get_dicomfield example_world "EchoTime" "scan.dcm" initial).1
  = Ret (PyStr "None") ∧
  (get_dicomfield example_world "EchoTime" "scan.dcm" initial).1
  ≠ Ret PyNone ∧
  warned (get_dicomfield example_world "EchoTime" "scan.dcm" initial).2 = [].
Proof.
  split; [by repeat split|].
  by apply (get_dicomfield_not_found_silent example_world "EchoTime"
              "scan.dcm" initial scan_dataset scan_dump).
Defined.

(** C3, what the code does: when [pydicom.dcmread] raises [IOError],
    [get_dicomfield] warns that it cannot read the file and then raises
    [UnboundLocalError] to its caller, the local [value] never having been
    assigned. *)
Theorem get_dicomfield_IOError_raises w tagname dicomfile st :
  DICOMFILE_MEMO st ≠ Some dicomfile →
  dcmread w dicomfile = Raise IOError →
  let result := get_dicomfield w tagname dicomfile st in
  result.1 = Raise UnboundLocalError ∧
  warned result.2 = warned st ++ [CannotRead dicomfile].
Proof.
  intros Hne Hread result. subst result.
  erewrite get_dicomfield_IOError
    by (rewrite lookup_tag_fresh, Hread by done; reflexivity).
  done.
Qed.

Lemma get_dicomfield_IOError_raises_witness :
  DICOMFILE_MEMO after_scan ≠ Some "missing.dcm" ∧
  dcmread example_world "missing.dcm" = Raise IOError ∧
  (get_dicomfield example_world "PatientID" "missing.dcm" after_scan).1
  = Raise UnboundLocalError.
Proof.
  assert (H1 : DICOMFILE_MEMO after_scan ≠ Some "missing.dcm") by (by vm_compute).
  split; [exact H1|]. split; [reflexivity|].
  exact (proj1 (get_dicomfield_IOError_raises example_world "PatientID"
                  "missing.dcm" after_scan H1 eq_refl)).
Defined.

(** C7: when [pydicom.dcmread] raises [IOError] for the file,
    [get_dicomfield] leaves both globals as they were: the file is not
    recorded as the memoised one, and the memoised dataset is kept. *)
Theorem get_dicomfield_IOError_keeps_cache w tagname dicomfile st :
  dcmread w dicomfile = Raise IOError →
  let st' := (get_dicomfield w tagname dicomfile st).2 in
  DICOMDICT_MEMO st' = DICOMDICT_MEMO st ∧
  DICOMFILE_MEMO st' = DICOMFILE_MEMO st ∧
  (DICOMFILE_MEMO st ≠ Some dicomfile → DICOMFILE_MEMO st' ≠ Some dicomfile).
Proof.
  intros Hread st'. subst st'.
  destruct (get_dicomfield_same_cache w tagname dicomfile st) as (Hd & Hf & _).
  assert (DICOMDICT_MEMO (lookup_tag w tagname dicomfile st).2
            = DICOMDICT_MEMO st ∧
          DICOMFILE_MEMO (lookup_tag w tagname dicomfile st).2
            = DICOMFILE_MEMO st) as [Hd' Hf'].
  { destruct (decide (DICOMFILE_MEMO st = Some dicomfile)) as [Heq|Hne].
    - by rewrite lookup_tag_cached.
    - by rewrite lookup_tag_fresh, Hread. }
  rewrite Hd, Hf, Hd', Hf'. by repeat split.
Qed.

Lemma get_dicomfield_IOError_keeps_cache_witness :
  dcmread example_world "missing.dcm" = Raise IOError ∧
  DICOMFILE_MEMO after_scan = Some "scan.dcm" ∧
  DICOMFILE_MEMO
    (get_dicomfield example_world "PatientID" "missing.dcm" after_scan).2
  = DICOMFILE_MEMO after_scan.
Proof.
  split; [reflexivity|]. split; [by vm_compute|].
  exact (proj1 (proj2 (get_dicomfield_IOError_keeps_cache example_world
                         "PatientID" "missing.dcm" after_scan eq_refl))).
Defined.

(** C5, amended: when [pydicom.dcmread] succeeds on the file, two calls of
    [get_dicomfield] in a row for that file hand it to the parser at most
    once, the second call parsing nothing and working on the memoised
    dataset; and a call for a file other than the memoised one puts that
    file and its dataset in the two globals, in place of what they held. *)
Theorem get_dicomfield_memo w tagname1 tagname2 dicomfile st (d : dataset) :
  dcmread w dicomfile = Ret d →
  let st1 := (get_dicomfield w tagname1 dicomfile st).2 in
  let st2 := (get_dicomfield w tagname2 dicomfile st1).2 in
  (parsed st2 = parsed st1 ∧
   length (parsed st2) ≤ S (length (parsed st)) ∧
   DICOMFILE_MEMO st2 = Some dicomfile ∧
   DICOMDICT_MEMO st2 = DICOMDICT_MEMO st1 ∧
   lookup_tag w tagname2 dicomfile st1
   = (match DICOMDICT_MEMO st1 with
      | Some d1 => dataset_get d1 tagname2
      | None => Raise AttributeError
      end, st1)) ∧
  (DICOMFILE_MEMO st ≠ Some dicomfile →
   DICOMFILE_MEMO st1 = Some dicomfile ∧
   DICOMDICT_MEMO st1 = Some d ∧
   parsed st1 = parsed st ++ [dicomfile]).
Proof.
  intros Hread st1 st2.
  destruct (get_dicomfield_same_cache w tagname1 dicomfile st)
    as (Hd1 & Hf1 & Hp1). fold st1 in Hd1, Hf1, Hp1.
  destruct (get_dicomfield_same_cache w tagname2 dicomfile st1)
    as (Hd2 & Hf2 & Hp2). fold st2 in Hd2, Hf2, Hp2.
  assert (Hfresh : DICOMFILE_MEMO st ≠ Some dicomfile →
                   DICOMFILE_MEMO st1 = Some dicomfile ∧
                   DICOMDICT_MEMO st1 = Some d ∧
                   parsed st1 = parsed st ++ [dicomfile]).
  { intros Hne. rewrite Hd1, Hf1, Hp1.
    by rewrite lookup_tag_fresh, Hread. }
  assert (Hfile : DICOMFILE_MEMO st1 = Some dicomfile ∧
                  length (parsed st1) ≤ S (length (parsed st))).
  { destruct (decide (DICOMFILE_MEMO st = Some dicomfile)) as [Heq|Hne].
    - rewrite Hf1, Hp1, lookup_tag_cached by done. simpl. split; [done|lia].
    - destruct (Hfresh Hne) as (-> & _ & ->).
      rewrite length_app. simpl. split; [done|lia]. }
  destruct Hfile as [Hfile Hlen].
  pose proof (lookup_tag_cached w tagname2 dicomfile st1 Hfile) as Hrun.
  rewrite Hrun in Hd2, Hf2, Hp2. simpl in *.
  split; [|done]. rewrite Hp2, Hf2, Hd2. done.
Qed.

Lemma get_dicomfield_memo_witness :
  dcmread example_world "scan.dcm" = Ret scan_dataset ∧
  parsed (get_dicomfield example_world "EchoNumbers" "scan.dcm"
            (get_dicomfield example_world "PatientID" "scan.dcm" initial).2).2
  = parsed (get_dicomfield example_world "PatientID" "scan.dcm" initial).2.
Proof.
  split; [reflexivity|].
  exact (proj1 (proj1 (get_dicomfield_memo example_world "PatientID"
                         "EchoNumbers" "scan.dcm" initial scan_dataset
                         eq_refl))).
Defined.

(** C5 as it is stated fails where the parser does not succeed.  After a
    call for [scan.dcm], a call for [notes.txt], which pydicom rejects, leaves
    [scan.dcm] in the globals; and two calls in a row for [notes.txt] hand it
    to the parser twice. *)
Lemma get_dicomfield_memo_counterexample :
  DICOMFILE_MEMO after_scan = Some "scan.dcm" ∧
  DICOMFILE_MEMO
    (get_dicomfield example_world "PatientID" "notes.txt" after_scan).2
  = Some "scan.dcm" ∧
  parsed
    (get_dicomfield example_world "PatientID" "notes.txt"
       (get_dicomfield example_world "PatientID" "notes.txt" initial).2).2
  = ["notes.txt"; "notes.txt"].
Proof. by vm_compute. Qed.

(** What [parse_from_x_protocol] returns is a text or [None]. *)
Lemma parse_from_x_protocol_value w pattern dicomfile st v :
  (parse_from_x_protocol w pattern dicomfile st).1 = Ret v →
  v = PyNone ∨ (∃ s, v = PyStr s).
Proof.
  destruct (disk w dicomfile) as [content|] eqn:Hdisk.
  - destruct (parse_from_x_protocol_run w pattern dicomfile st content Hdisk)
      as (st1 & _ & ->).
    destruct (first_match _ _) as [group|]; simpl.
    + destruct (decode group) as [s|e]; simpl; [|done]. intros [= <-]. eauto.
    + intros [= <-]. by left.
  - unfold parse_from_x_protocol, is_dicomfile_siemens, open_rb.
    by rewrite Hdisk.
Qed.

(** A tag that the consulted dataset has with a value: the lookup returns
    that value, and [get_dicomfield] what the cast makes of it. *)
Lemma get_dicomfield_found w tagname dicomfile st (d : dataset) v :
  consults w dicomfile st d → d !! tagname = Some (Value v) →
  (get_dicomfield w tagname dicomfile st).1 = Ret (cast v).
Proof.
  unfold consults. intros Hd Hv.
  assert (∃ st1, lookup_tag w tagname dicomfile st = (Ret v, st1))
    as (st1 & Hrun).
  { case_bool_decide as Hf.
    - rewrite lookup_tag_fresh, Hd by congruence.
      unfold dataset_get. rewrite Hv. eauto.
    - rewrite lookup_tag_cached, Hd by congruence.
      unfold dataset_get. rewrite Hv. eauto. }
  by rewrite (get_dicomfield_value _ _ _ _ _ _ Hrun).
Qed.

(** C10: a value that [get_dicomfield] returns is an integer or a text, never
    [None].  The normalization does this to a value that the dataset has for
    the tag: an integer is returned as that integer, a text as that text, any
    other object as the text [str] makes of it, and [None] as the text
    ['None'].  A tag that the dataset does not have gives the text ['None'],
    whatever the protocol dump holds.  When the lookup in the dataset raises
    (anything but [IOError]), a text that the pattern extraction yields is
    returned as it is, and the text ['None'] is returned when the extraction
    yields no text. *)
Theorem get_dicomfield_int_or_str w tagname dicomfile st :
  (∀ v st', get_dicomfield w tagname dicomfile st = (Ret v, st') →
            v ≠ PyNone ∧ ((∃ z, v = PyInt z) ∨ (∃ s, v = PyStr s))) ∧
  (∀ (d : dataset) v,
     consults w dicomfile st d → d !! tagname = Some (Value v) →
     (get_dicomfield w tagname dicomfile st).1
     = Ret match v with
           | PyInt z => PyInt z
           | PyStr s => PyStr s
           | PyOther text => PyStr text
           | PyNone => PyStr "None"
           end) ∧
  (∀ d : dataset, consults w dicomfile st d → d !! tagname = None →
            (get_dicomfield w tagname dicomfile st).1 = Ret (PyStr "None")) ∧
  (∀ e st1, lookup_tag w tagname dicomfile st = (Raise e, st1) →
            e ≠ IOError →
            (∀ s, (parse_from_x_protocol w tagname dicomfile st1).1
                  = Ret (PyStr s) →
                  (get_dicomfield w tagname dicomfile st).1 = Ret (PyStr s)) ∧
            ((∀ s, (parse_from_x_protocol w tagname dicomfile st1).1
                   ≠ Ret (PyStr s)) →
             (get_dicomfield w tagname dicomfile st).1 = Ret (PyStr "None"))).
Proof.
  split; [|split; [|split]].
  - intros v st'. unfold get_dicomfield, mbind, M_bind.
    destruct (try_except _ _ st) as [[[v0|]|e] s1]; simpl; intros [= <- <-].
    destruct v0; simpl; split; eauto.
  - intros d v Hd Hv.
    rewrite (get_dicomfield_found w tagname dicomfile st d v Hd Hv).
    by destruct v.
  - intros d Hd Habs. by apply (get_dicomfield_absent w tagname dicomfile st d).
  - intros e st1 Hrun He.
    rewrite (get_dicomfield_fallback _ _ _ _ _ _ Hrun He).
    pose proof (parse_from_x_protocol_value w tagname dicomfile st1) as Hv.
    destruct (parse_from_x_protocol w tagname dicomfile st1) as [[v|e'] st2];
      simpl in *.
    + split.
      * by intros s [= ->].
      * intros Hnone. destruct (Hv v eq_refl) as [->|[s ->]]; [done|].
        by destruct (Hnone s).
    + by split.
Qed.

Lemma get_dicomfield_int_or_str_witness :
  (get_dicomfield example_world "EchoNumbers" "scan.dcm" initial
   = (Ret (PyInt 2), after_scan) ∧
   PyInt 2 ≠ PyNone) ∧
  consults example_world "scan.dcm" initial scan_dataset ∧
  (scan_dataset !! "PatientID" = Some (Value (PyStr "sub01")) ∧
   (get_dicomfield example_world "PatientID" "scan.dcm" initial).1
   = Ret (PyStr "sub01")) ∧
  (scan_dataset !! "ImageType"
   = Some (Value (PyOther "['ORIGINAL', 'PRIMARY']")) ∧
   (get_dicomfield example_world "ImageType" "scan.dcm" initial).1
   = Ret (PyStr "['ORIGINAL', 'PRIMARY']")) ∧
  (scan_dataset !! "EchoTime" = None ∧
   (get_dicomfield example_world "EchoTime" "scan.dcm" initial).1
   = Ret (PyStr "None")) ∧
  (lookup_tag export_world "lRepetitions" "export.ima" initial
   = (Raise InvalidDicomError,
      (lookup_tag export_world "lRepetitions" "export.ima" initial).2) ∧
   InvalidDicomError ≠ IOError ∧
   (parse_from_x_protocol export_world "lRepetitions" "export.ima"
      (lookup_tag export_world "lRepetitions" "export.ima" initial).2).1
   = Ret (PyStr "7") ∧
   (get_dicomfield export_world "lRepetitions" "export.ima" initial).1
   = Ret (PyStr "7")).
Proof.
  assert (Hrun : get_dicomfield example_world "EchoNumbers" "scan.dcm" initial
                 = (Ret (PyInt 2), after_scan)) by (vm_compute; reflexivity).
  assert (Hlookup :
            lookup_tag export_world "lRepetitions" "export.ima" initial
            = (Raise InvalidDicomError,
               (lookup_tag export_world "lRepetitions" "export.ima"
                  initial).2))
    by (vm_compute; reflexivity).
  assert (Hparse :
            (parse_from_x_protocol export_world "lRepetitions" "export.ima"
               (lookup_tag export_world "lRepetitions" "export.ima"
                  initial).2).1 = Ret (PyStr "7"))
    by (vm_compute; reflexivity).
  split; [|split; [reflexivity|split; [|split; [|split]]]].
  - split; [exact Hrun|].
    exact (proj1 (proj1 (get_dicomfield_int_or_str example_world
                           "EchoNumbers" "scan.dcm" initial) _ _ Hrun)).
  - split; [reflexivity|].
    exact (proj1 (proj2 (get_dicomfield_int_or_str example_world "PatientID"
                           "scan.dcm" initial))
             scan_dataset (PyStr "sub01") eq_refl eq_refl).
  - split; [reflexivity|].
    exact (proj1 (proj2 (get_dicomfield_int_or_str example_world "ImageType"
                           "scan.dcm" initial))
             scan_dataset (PyOther "['ORIGINAL', 'PRIMARY']")
             eq_refl eq_refl).
  - split; [reflexivity|].
    exact (proj1 (proj2 (proj2 (get_dicomfield_int_or_str example_world
                                  "EchoTime" "scan.dcm" initial)))
             scan_dataset eq_refl eq_refl).
  - split; [exact Hlookup|]. split; [done|]. split; [exact Hparse|].
    exact (proj1 (proj2 (proj2 (proj2 (get_dicomfield_int_or_str export_world
                                         "lRepetitions" "export.ima" initial)))
                    InvalidDicomError _ Hlookup
                    ltac:(discriminate))
             "7" Hparse).
Defined.

(** * More of the series matcher *)

Lemma attribute_item_well_shaped (a : dict scalar) (item : dict field)
    (k : string) (v : scalar) :
  well_shaped item = true → dict_get a k = Some v →
  (∃ u, attribute item k = Ret u ∧
        attribute_agrees a item k = bool_decide (v = u)) ∨
  (attribute item k = Raise KeyError ∧ attribute_agrees a item k = false).
Proof.
  unfold well_shaped, attribute, getitem, attribute_agrees, attributes_of.
  intros Hw ->.
  destruct (dict_get item "attributes") as [[b|w]|]; simpl; try done; auto.
  destruct (dict_get b k) as [u|]; simpl.
  - left. exists u. split; [done|]. apply bool_decide_ext. split; congruence.
  - by right.
Qed.

Lemma match_attributes_agrees (series item : dict field) (a : dict scalar)
    (keys : list string) (m : bool) :
  attributes_of series = Some a → well_shaped item = true →
  keys ⊆ dict_keys a →
  except_KeyError (match_attributes series item keys m)
  = Ret (m && forallb (attribute_agrees a item) keys).
Proof.
  intros Hs Hitem. revert m.
  induction keys as [|k keys IH]; intros m Hsub; simpl.
  - by rewrite andb_true_r.
  - rewrite (attribute_lookup _ _ Hs).
    assert (Hk : k ∈ dict_keys a) by (apply Hsub; left).
    apply dict_get_keys in Hk as [v Hv]. rewrite Hv. simpl.
    destruct (attribute_item_well_shaped a item k v Hitem Hv)
      as [(u & -> & ->)|[-> ->]]; simpl.
    + rewrite IH by (intros x Hx; apply Hsub; by right).
      by rewrite andb_assoc.
    + by rewrite andb_false_r.
Qed.

Lemma match_key_agrees (series item : dict field) (a : dict scalar)
    (matchbidslabels : bool) (key : string) (m : bool) :
  attributes_of series = Some a → well_shaped item = true →
  key ∈ dict_keys series →
  except_KeyError (match_key series item matchbidslabels key m)
  = Ret (m && key_agrees series a matchbidslabels item key).
Proof.
  intros Hs Hitem Hkey. unfold match_key, key_agrees.
  destruct (String.eqb key "attributes").
  - rewrite (getitem_attributes _ _ Hs). simpl.
    by apply match_attributes_agrees.
  - destruct matchbidslabels; [|by rewrite andb_true_r].
    unfold label_agrees, getitem.
    apply dict_get_keys in Hkey as [f ->]. simpl.
    destruct (dict_get item key); simpl; [done|by rewrite andb_false_r].
Qed.

Lemma match_keys_agrees (series item : dict field) (a : dict scalar)
    (matchbidslabels : bool) (keys : list string) (m : bool) :
  attributes_of series = Some a → well_shaped item = true →
  keys ⊆ dict_keys series →
  match_keys series item matchbidslabels keys m
  = Ret (m && forallb (key_agrees series a matchbidslabels item) keys).
Proof.
  intros Hs Hitem. revert m.
  induction keys as [|key keys IH]; intros m Hsub; simpl.
  - by rewrite andb_true_r.
  - rewrite (match_key_agrees _ _ a) by (try done; apply Hsub; left). simpl.
    destruct (m && key_agrees series a matchbidslabels item key) eqn:Hm.
    + rewrite IH by (intros x Hx; apply Hsub; by right).
      by rewrite andb_assoc, Hm.
    + by rewrite andb_assoc, Hm.
Qed.

Lemma exist_series_agrees (series : dict field) (a : dict scalar)
    (serieslist : list (dict field)) (matchbidslabels : bool) :
  attributes_of series = Some a →
  Forall (λ item, well_shaped item = true) serieslist →
  exist_series series serieslist matchbidslabels
  = Ret (any_present a && existsb (agrees series a matchbidslabels) serieslist).
Proof.
  intros Hs Hlist.
  induction Hlist as [|item serieslist Hitem _ IH]; simpl.
  - by rewrite andb_false_r.
  - rewrite (initial_match_any _ _ Hs). fold (any_present a). simpl.
    rewrite (match_keys_agrees _ _ a) by done. simpl.
    fold (agrees series a matchbidslabels item).
    destruct (any_present a); simpl.
    + destruct (agrees series a matchbidslabels item); simpl; [done|].
      by rewrite IH.
    + by rewrite IH.
Qed.

Lemma any_present_iff (a : dict scalar) :
  any_present a = true ↔ ∃ k u, dict_get a k = Some u ∧ u ≠ SNone.
Proof.
  unfold any_present. rewrite existsb_exists. split.
  - intros (k & Hk & Hv).
    apply list_elem_of_In, dict_get_keys in Hk as [u Hu].
    exists k, u. split; [done|]. intros ->.
    by rewrite Hu, bool_decide_eq_true_2 in Hv.
  - intros (k & u & Hk & Hu). exists k. split.
    + apply list_elem_of_In, dict_get_keys. eauto.
    + rewrite Hk, bool_decide_eq_false_2; [done|congruence].
Qed.

Lemma attributes_agree_iff (a : dict scalar) (item : dict field) :
  forallb (attribute_agrees a item) (dict_keys a) = true ↔
  ∀ k v, dict_get a k = Some v →
         ∃ b, attributes_of item = Some b ∧ dict_get b k = Some v.
Proof.
  rewrite forallb_forall. unfold attribute_agrees. split.
  - intros Hall k v Hk.
    assert (Hin : In k (dict_keys a))
      by (apply list_elem_of_In, dict_get_keys; eauto).
    specialize (Hall k Hin). rewrite Hk in Hall.
    destruct (attributes_of item) as [b|]; [|done].
    exists b. split; [done|]. by apply bool_decide_eq_true in Hall.
  - intros Hall k Hin.
    apply list_elem_of_In, dict_get_keys in Hin as [v Hv]. rewrite Hv.
    destruct (Hall k v Hv) as (b & -> & Hb). by apply bool_decide_eq_true.
Qed.

Lemma agrees_covers (series : dict field) (a : dict scalar)
    (matchbidslabels : bool) (item : dict field) :
  attributes_of series = Some a →
  agrees series a matchbidslabels item = true ↔
  covers series a matchbidslabels item.
Proof.
  intros Hs. unfold agrees, covers, key_agrees. rewrite forallb_forall.
  assert (Hattr : In "attributes" (dict_keys series)).
  { apply list_elem_of_In, dict_get_keys. unfold attributes_of in Hs.
    destruct (dict_get series "attributes"); [eauto|done]. }
  split.
  - intros Hall. split.
    + apply attributes_agree_iff. by apply (Hall "attributes").
    + intros -> key f Hne Hf.
      assert (Hin : In key (dict_keys series))
        by (apply list_elem_of_In, dict_get_keys; eauto).
      specialize (Hall key Hin).
      rewrite (proj2 (String.eqb_neq key "attributes") Hne) in Hall.
      unfold label_agrees in Hall. rewrite Hf in Hall.
      destruct (dict_get item key) as [g|]; [eauto|done].
  - intros [Ha Hl] key Hin.
    destruct (String.eqb_spec key "attributes") as [->|Hne].
    + by apply attributes_agree_iff.
    + destruct matchbidslabels; [|done].
      apply list_elem_of_In, dict_get_keys in Hin as [f Hf].
      destruct (Hl eq_refl key f Hne Hf) as (g & Hg & Heq).
      unfold label_agrees. by rewrite Hf, Hg.
Qed.

(** X1: for a candidate with an attribute dictionary and a list of series
    records, [exist_series] returns a boolean, and it is [True] exactly when
    one attribute value of the candidate is not [None] and one record of the
    list has every attribute of the candidate with the same value and, if the
    labels are matched, every other key of the candidate with an equal
    value. *)
Theorem exist_series_decides (series : dict field) (a : dict scalar)
    (serieslist : list (dict field)) (matchbidslabels : bool) :
  attributes_of series = Some a →
  Forall (λ item, well_shaped item = true) serieslist →
  ∃ found : bool,
    exist_series series serieslist matchbidslabels = Ret found ∧
    (found = true ↔
     (∃ k u, dict_get a k = Some u ∧ u ≠ SNone) ∧
     (∃ item, item ∈ serieslist ∧ covers series a matchbidslabels item)).
Proof.
  intros Hs Hlist. eexists. split; [by apply (exist_series_agrees _ a)|].
  rewrite andb_true_iff, any_present_iff, existsb_exists.
  split; intros [Hany (item & Hin & Hitem)]; (split; [done|]); exists item.
  - split; [by apply list_elem_of_In|by apply (agrees_covers _ _ _ _ Hs)].
  - split; [by apply list_elem_of_In|by apply (agrees_covers _ _ _ _ Hs)].
Qed.

Lemma exist_series_decides_witness :
  attributes_of func = Some [("a", SInt 1); ("b", SStr "x")] ∧
  ∃ found : bool,
    exist_series func [anat; func] true = Ret found ∧
    (found = true ↔
     (∃ k u, dict_get [("a", SInt 1); ("b", SStr "x")] k = Some u ∧ u ≠ SNone) ∧
     (∃ item, item ∈ [anat; func] ∧
              covers func [("a", SInt 1); ("b", SStr "x")] true item)).
Proof.
  split; [reflexivity|].
  apply (exist_series_decides func [("a", SInt 1); ("b", SStr "x")]);
    [reflexivity | by repeat constructor].
Defined.

(** X2: on a list made of two, [exist_series] is [exist_series] on the
    first and, if that returns [False], on the second; [True] and an
    exception of the first are final. *)
Theorem exist_series_app (series : dict field)
    (l1 l2 : list (dict field)) (matchbidslabels : bool) :
  exist_series series (l1 ++ l2) matchbidslabels
  = match exist_series series l1 matchbidslabels with
    | Ret false => exist_series series l2 matchbidslabels
    | found => found
    end.
Proof.
  induction l1 as [|item l1 IH]; simpl; [done|].
  destruct (initial_match series) as [m|e]; simpl; [|done].
  destruct (match_keys _ _ _ _ _) as [[]|e]; simpl; done.
Qed.

(** X3: a candidate without the key ['attributes'] makes [exist_series]
    raise [KeyError] on every list that is not empty (line 316 is outside the
    [try]); on the empty list it returns [False]. *)
Theorem exist_series_no_attributes (series : dict field)
    (serieslist : list (dict field)) (matchbidslabels : bool) :
  dict_get series "attributes" = None →
  exist_series series serieslist matchbidslabels
  = if bool_decide (serieslist = []) then Ret false else Raise KeyError.
Proof.
  intros Hs. destruct serieslist as [|item serieslist]; simpl; [done|].
  unfold initial_match, getitem. by rewrite Hs.
Qed.

Lemma exist_series_no_attributes_witness :
  dict_get [("modality", Label (SStr "anat"))] "attributes" = None ∧
  exist_series [("modality", Label (SStr "anat"))] [anat] true
  = Raise KeyError.
Proof.
  split; [reflexivity|].
  exact (exist_series_no_attributes [("modality", Label (SStr "anat"))]
           [anat] true eq_refl).
Defined.

Lemma attribute_same (item item' : dict field) (k : string) :
  dict_get item "attributes" = dict_get item' "attributes" →
  attribute item k = attribute item' k.
Proof. intros H. unfold attribute, getitem. by rewrite H. Qed.

Lemma match_attributes_same_attributes (series item item' : dict field)
    (keys : list string) (m : bool) :
  dict_get item "attributes" = dict_get item' "attributes" →
  match_attributes series item keys m = match_attributes series item' keys m.
Proof.
  intros H. revert m. induction keys as [|k keys IH]; intros m; simpl; [done|].
  rewrite (attribute_same item item' k H).
  destruct (attribute series k); simpl; [|done].
  destruct (attribute item' k); simpl; [apply IH|done].
Qed.

Lemma match_keys_same_attributes (series item item' : dict field)
    (keys : list string) (m : bool) :
  dict_get item "attributes" = dict_get item' "attributes" →
  match_keys series item false keys m = match_keys series item' false keys m.
Proof.
  intros H. revert m. induction keys as [|key keys IH]; intros m; simpl; [done|].
  unfold match_key. destruct (String.eqb key "attributes"); simpl.
  - destruct (getitem series "attributes") as [f|e]; simpl; [|by destruct e].
    destruct (iterate f) as [attrkeys|e]; simpl; [|by destruct e].
    rewrite (match_attributes_same_attributes series item item' attrkeys m H).
    destruct (except_KeyError _) as [[]|e]; simpl; [apply IH|done|done].
  - destruct m; [apply IH|done].
Qed.

(** X4: when the labels are not matched, [exist_series] looks at nothing
    of the earlier records but what they hold under ['attributes']: two lists
    whose records have the same entries there, one by one, give the same
    outcome. *)
Theorem exist_series_labels_ignored (series : dict field)
    (l l' : list (dict field)) :
  Forall2 (λ item item',
             dict_get item "attributes" = dict_get item' "attributes") l l' →
  exist_series series l false = exist_series series l' false.
Proof.
  induction 1 as [|item item' l l' Hitem _ IH]; simpl; [done|].
  destruct (initial_match series) as [m|e]; simpl; [|done].
  rewrite (match_keys_same_attributes series item item' _ m Hitem).
  destruct (match_keys _ _ _ _ _) as [[]|e]; simpl; done.
Qed.

Lemma exist_series_labels_ignored_witness :
  Forall2 (λ item item',
             dict_get item "attributes" = dict_get item' "attributes")
          [anat; func_absent] [func; anat_absent] ∧
  exist_series func [anat; func_absent] false
  = exist_series func [func; anat_absent] false.
Proof.
  assert (H : Forall2 (λ item item',
                dict_get item "attributes" = dict_get item' "attributes")
              [anat; func_absent] [func; anat_absent])
    by (by repeat constructor).
  split; [exact H|]. exact (exist_series_labels_ignored func _ _ H).
Defined.

(** * More of the tag resolver *)

Lemma lookup_tag_raises w tagname dicomfile st e :
  (lookup_tag w tagname dicomfile st).1 = Raise e ↔
  lookup_raises w tagname dicomfile st e.
Proof.
  unfold lookup_raises, consults.
  destruct (decide (DICOMFILE_MEMO st = Some dicomfile)) as [Heq|Hne].
  - rewrite lookup_tag_cached by done. simpl.
    rewrite bool_decide_eq_false_2 by (intros H; apply H; congruence).
    destruct (DICOMDICT_MEMO st) as [d|] eqn:Hd.
    + unfold dataset_get. split.
      * intros Hget. right. left. exists d. split; [done|].
        destruct (d !! tagname) as [[v|e']|]; simpl in *; congruence.
      * intros [[Hne _]|[(d' & [= <-] & Hget)|(_ & [=] & _)]]; [done|].
        by rewrite Hget.
    + split.
      * intros [= <-]. right. right. done.
      * intros [[Hne _]|[(d' & [=] & _)|(_ & _ & ->)]]; done.
  - rewrite lookup_tag_fresh by done.
    rewrite bool_decide_eq_true_2 by congruence.
    destruct (dcmread w dicomfile) as [d|e'] eqn:Hread; simpl.
    + unfold dataset_get. split.
      * intros Hget. right. left. exists d. split; [done|].
        destruct (d !! tagname) as [[v|e'']|]; simpl in *; congruence.
      * intros [[_ [=]]|[(d' & [= <-] & Hget)|(Heq & _)]]; [|done].
        by rewrite Hget.
    + split.
      * intros [= <-]. by left.
      * intros [[_ [= <-]]|[(d' & [=] & _)|(Heq & _)]]; done.
Qed.

(** X5: for a tag that the dataset has with a value, [get_dicomfield]
    returns that value cast to [int] or [str] and emits no warning, whatever
    the raw bytes of the file are. *)
Theorem get_dicomfield_present w tagname dicomfile st (d : dataset) v :
  consults w dicomfile st d →
  d !! tagname = Some (Value v) →
  (get_dicomfield w tagname dicomfile st).1 = Ret (cast v) ∧
  warned (get_dicomfield w tagname dicomfile st).2 = warned st.
Proof.
  unfold consults. intros Hd Hv.
  assert (∃ st1, lookup_tag w tagname dicomfile st = (Ret v, st1) ∧
                 warned st1 = warned st) as (st1 & Hrun & Hw).
  { case_bool_decide as Hf.
    - rewrite lookup_tag_fresh, Hd by congruence.
      unfold dataset_get. rewrite Hv. eauto.
    - rewrite lookup_tag_cached, Hd by congruence.
      unfold dataset_get. rewrite Hv. eauto. }
  by rewrite (get_dicomfield_value _ _ _ _ _ _ Hrun).
Qed.

Lemma get_dicomfield_present_witness :
  consults example_world "scan.dcm" initial scan_dataset ∧
  scan_dataset !! "ImageType" = Some (Value (PyOther "['ORIGINAL', 'PRIMARY']")) ∧
  (get_dicomfield example_world "ImageType" "scan.dcm" initial).1
  = Ret (PyStr "['ORIGINAL', 'PRIMARY']").
Proof.
  split; [reflexivity|]. split; [reflexivity|].
  exact (proj1 (get_dicomfield_present example_world "ImageType" "scan.dcm"
                  initial scan_dataset _ eq_refl eq_refl)).
Defined.

(** X6: the one exception [get_dicomfield] raises is [UnboundLocalError],
    and it raises it exactly when the lookup in the dataset raised
    [IOError]; every other failure ends in a returned text. *)
Theorem get_dicomfield_raises w tagname dicomfile st e :
  (get_dicomfield w tagname dicomfile st).1 = Raise e ↔
  e = UnboundLocalError ∧ lookup_raises w tagname dicomfile st IOError.
Proof.
  rewrite <- lookup_tag_raises.
  destruct (lookup_tag w tagname dicomfile st) as [[v|e'] st1] eqn:Hrun.
  - rewrite (get_dicomfield_value _ _ _ _ _ _ Hrun). simpl.
    split; [done|]. by intros [_ ?].
  - destruct (decide (e' = IOError)) as [->|He'].
    + rewrite (get_dicomfield_IOError _ _ _ _ _ Hrun). simpl.
      split; [by intros [= <-]|]. by intros [-> _].
    + rewrite (get_dicomfield_fallback _ _ _ _ _ _ Hrun He'). simpl.
      destruct (parse_from_x_protocol w tagname dicomfile st1) as [[v|e''] st2];
        simpl; (split; [done|]); intros [_ [= ->]]; done.
Qed.

Lemma lookup_tag_warned w tagname dicomfile st :
  warned (lookup_tag w tagname dicomfile st).2 = warned st.
Proof.
  destruct (decide (DICOMFILE_MEMO st = Some dicomfile)) as [Heq|Hne].
  - by rewrite lookup_tag_cached.
  - rewrite lookup_tag_fresh by done. by destruct (dcmread w dicomfile).
Qed.

Lemma parse_from_x_protocol_warned w pattern dicomfile st content :
  disk w dicomfile = Some content →
  warned (parse_from_x_protocol w pattern dicomfile st).2
  = warned st
    ++ (if contains (encode "ASCCONV BEGIN") content then [] else [NotSiemens])
    ++ match first_match pattern (readlines content) with
       | Some _ => []
       | None => [PatternNotFound (regexp pattern) dicomfile]
       end.
Proof.
  intros Hdisk.
  destruct (parse_from_x_protocol_run w pattern dicomfile st content Hdisk)
    as (st1 & [_ Hw] & ->).
  destruct (first_match _ _); simpl.
  - by rewrite app_nil_r.
  - by rewrite Hw, app_assoc.
Qed.

Lemma get_dicomfield_fallback_readable w tagname dicomfile st e st1 content :
  lookup_tag w tagname dicomfile st = (Raise e, st1) →
  e ≠ IOError →
  disk w dicomfile = Some content →
  (get_dicomfield w tagname dicomfile st).1
  = Ret (PyStr match first_match tagname (readlines content) with
               | Some group =>
                   if utf8_valid group then string_of_list_byte group
                   else "None"
               | None => "None"
               end) ∧
  warned (get_dicomfield w tagname dicomfile st).2
  = warned st1
    ++ (if contains (encode "ASCCONV BEGIN") content then [] else [NotSiemens])
    ++ match first_match tagname (readlines content) with
       | Some group =>
           if utf8_valid group then []
           else [CouldNotExtract tagname dicomfile]
       | None => [PatternNotFound (regexp tagname) dicomfile]
       end.
Proof.
  intros Hrun Hne Hdisk.
  rewrite (get_dicomfield_fallback _ _ _ _ _ _ Hrun Hne).
  pose proof (parse_from_x_protocol_warned w tagname dicomfile st1 content Hdisk)
    as Hwarned.
  destruct (parse_from_x_protocol_run w tagname dicomfile st1 content Hdisk)
    as (st2 & _ & Heq). rewrite Heq in Hwarned |- *.
  destruct (first_match _ _) as [group|]; simpl in *.
  - unfold decode. destruct (utf8_valid group); simpl in *.
    + split; [done|]. by rewrite Hwarned.
    + split; [done|]. rewrite Hwarned, app_nil_r. by rewrite <- app_assoc.
  - split; [done|]. by rewrite Hwarned.
Qed.

(** X7: when the lookup in the dataset raises anything but [IOError] and
    the file can be opened, [get_dicomfield] returns what the protocol dump
    gives for a tag without metacharacters: the text of the first matching
    line, and the text ['None'] when no line matches or when that text is not
    UTF-8; the warnings say which. *)
Theorem get_dicomfield_from_protocol_dump w tagname dicomfile st e content :
  regex_literal tagname = true →
  lookup_raises w tagname dicomfile st e →
  e ≠ IOError →
  disk w dicomfile = Some content →
  (get_dicomfield w tagname dicomfile st).1
  = Ret (PyStr match first_match tagname (readlines content) with
               | Some group =>
                   if utf8_valid group then string_of_list_byte group
                   else "None"
               | None => "None"
               end) ∧
  warned (get_dicomfield w tagname dicomfile st).2
  = warned st
    ++ (if contains (encode "ASCCONV BEGIN") content then [] else [NotSiemens])
    ++ match first_match tagname (readlines content) with
       | Some group =>
           if utf8_valid group then []
           else [CouldNotExtract tagname dicomfile]
       | None => [PatternNotFound (regexp tagname) dicomfile]
       end.
Proof.
  intros _ He%lookup_tag_raises Hne Hdisk.
  pose proof (lookup_tag_warned w tagname dicomfile st) as Hw.
  destruct (lookup_tag w tagname dicomfile st) as [r st1] eqn:Hrun.
  simpl in He, Hw. subst r. rewrite <- Hw.
  by apply (get_dicomfield_fallback_readable _ _ _ _ e).
Qed.

Lemma get_dicomfield_from_protocol_dump_witness :
  (regex_literal "tProtocolName" = true ∧
   lookup_raises export_world "tProtocolName" "latin.ima" initial
     InvalidDicomError ∧
   disk export_world "latin.ima" = Some latin_dump) ∧
  (get_dicomfield export_world "SliceThickness" "export.ima" initial).1
  = Ret (PyStr "2.5") ∧
  (get_dicomfield export_world "tProtocolName" "latin.ima" initial).1
  = Ret (PyStr "None") ∧
  warned (get_dicomfield export_world "tProtocolName" "latin.ima" initial).2
  = [CouldNotExtract "tProtocolName" "latin.ima"].
Proof.
  assert (H : ∀ tagname file,
            lookup_raises export_world tagname file initial InvalidDicomError)
    by (by left).
  split; [by repeat split|]. split.
  - exact (proj1 (get_dicomfield_from_protocol_dump export_world
                    "SliceThickness" "export.ima" initial InvalidDicomError
                    scan_dump eq_refl (H _ _) ltac:(discriminate) eq_refl)).
  - exact (get_dicomfield_from_protocol_dump export_world
             "tProtocolName" "latin.ima" initial InvalidDicomError
             latin_dump eq_refl (H _ _) ltac:(discriminate) eq_refl).
Defined.

(** X8: when the lookup in the dataset raises anything but [IOError] and
    the file cannot be opened either, [get_dicomfield] returns the text
    ['None'] and emits one warning, that the tag could not be extracted from
    the file. *)
Theorem get_dicomfield_could_not_extract w tagname dicomfile st e :
  lookup_raises w tagname dicomfile st e →
  e ≠ IOError →
  disk w dicomfile = None →
  (get_dicomfield w tagname dicomfile st).1 = Ret (PyStr "None") ∧
  warned (get_dicomfield w tagname dicomfile st).2
  = warned st ++ [CouldNotExtract tagname dicomfile].
Proof.
  intros He%lookup_tag_raises Hne Hdisk.
  pose proof (lookup_tag_warned w tagname dicomfile st) as Hw.
  destruct (lookup_tag w tagname dicomfile st) as [r st1] eqn:Hrun.
  simpl in He, Hw. subst r.
  rewrite (get_dicomfield_fallback _ _ _ _ _ _ Hrun Hne).
  unfold parse_from_x_protocol, is_dicomfile_siemens, open_rb.
  rewrite Hdisk. simpl. by rewrite Hw.
Qed.

Lemma get_dicomfield_could_not_extract_witness :
  (lookup_raises export_world "SliceThickness" "gone.ima" initial
     InvalidDicomError ∧
   disk export_world "gone.ima" = None) ∧
  (get_dicomfield export_world "SliceThickness" "gone.ima" initial).1
  = Ret (PyStr "None") ∧
  warned (get_dicomfield export_world "SliceThickness" "gone.ima" initial).2
  = warned initial ++ [CouldNotExtract "SliceThickness" "gone.ima"].
Proof.
  assert (H : lookup_raises export_world "SliceThickness" "gone.ima" initial
                InvalidDicomError) by (by left).
  split; [by split|].
  exact (get_dicomfield_could_not_extract export_world "SliceThickness"
           "gone.ima" initial InvalidDicomError H ltac:(discriminate) eq_refl).
Defined.

Lemma parse_from_x_protocol_same_disk w w' pattern dicomfile st :
  disk w dicomfile = disk w' dicomfile →
  parse_from_x_protocol w pattern dicomfile st
  = parse_from_x_protocol w' pattern dicomfile st.
Proof.
  intros H. unfold parse_from_x_protocol, is_dicomfile_siemens, open_rb.
  by rewrite H.
Qed.

(** X9: for the memoised file [get_dicomfield] does not call the parser:
    it answers from the memoised dataset, so that two worlds with the same
    raw bytes for the file give the same outcome and state whatever
    [pydicom.dcmread] would now return in each. *)
Theorem get_dicomfield_memoised_file w w' tagname dicomfile st :
  DICOMFILE_MEMO st = Some dicomfile →
  disk w dicomfile = disk w' dicomfile →
  get_dicomfield w tagname dicomfile st = get_dicomfield w' tagname dicomfile st ∧
  parsed (get_dicomfield w tagname dicomfile st).2 = parsed st.
Proof.
  intros Hmemo Hdisk.
  pose proof (lookup_tag_cached w tagname dicomfile st Hmemo) as Hrun.
  pose proof (lookup_tag_cached w' tagname dicomfile st Hmemo) as Hrun'.
  destruct (get_dicomfield_same_cache w tagname dicomfile st) as (_ & _ & Hp).
  rewrite Hrun in Hp. split; [|exact Hp]. clear Hp.
  destruct (match DICOMDICT_MEMO st with
            | Some d => dataset_get d tagname
            | None => Raise AttributeError
            end) as [v|e].
  - by rewrite (get_dicomfield_value _ _ _ _ _ _ Hrun),
               (get_dicomfield_value _ _ _ _ _ _ Hrun').
  - destruct (decide (e = IOError)) as [->|He].
    + by rewrite (get_dicomfield_IOError _ _ _ _ _ Hrun),
                 (get_dicomfield_IOError _ _ _ _ _ Hrun').
    + rewrite (get_dicomfield_fallback _ _ _ _ _ _ Hrun He),
              (get_dicomfield_fallback _ _ _ _ _ _ Hrun' He).
      by rewrite (parse_from_x_protocol_same_disk w w').
Qed.

Lemma get_dicomfield_memoised_file_witness :
  (DICOMFILE_MEMO after_scan = Some "scan.dcm" ∧
   disk example_world "scan.dcm"
   = disk (World (disk example_world) (λ _, Raise IOError)) "scan.dcm") ∧
  get_dicomfield example_world "EchoNumbers" "scan.dcm" after_scan
  = get_dicomfield (World (disk example_world) (λ _, Raise IOError))
      "EchoNumbers" "scan.dcm" after_scan.
Proof.
  split; [by split|].
  exact (proj1 (get_dicomfield_memoised_file example_world
                  (World (disk example_world) (λ _, Raise IOError))
                  "EchoNumbers" "scan.dcm" after_scan eq_refl eq_refl)).
Defined.

(** X10: a call of [get_dicomfield] keeps the warnings and the record of
    parser calls that it finds, adds at most two warnings, and calls the
    parser at most once, for the file it is given. *)
Theorem get_dicomfield_effects w tagname dicomfile st :
  ∃ ws ps,
    warned (get_dicomfield w tagname dicomfile st).2 = warned st ++ ws ∧
    length ws ≤ 2 ∧
    parsed (get_dicomfield w tagname dicomfile st).2 = parsed st ++ ps ∧
    (ps = [] ∨ ps = [dicomfile]).
Proof.
  assert (Hparsed : ∃ ps,
            parsed (get_dicomfield w tagname dicomfile st).2 = parsed st ++ ps ∧
            (ps = [] ∨ ps = [dicomfile])).
  { destruct (get_dicomfield_same_cache w tagname dicomfile st) as (_ & _ & ->).
    destruct (decide (DICOMFILE_MEMO st = Some dicomfile)) as [Heq|Hne].
    - rewrite lookup_tag_cached by done. exists []. by rewrite app_nil_r; auto.
    - rewrite lookup_tag_fresh by done. exists [dicomfile].
      destruct (dcmread w dicomfile); auto. }
  destruct Hparsed as (ps & Hps & Hps').
  assert (Hwarned : ∃ ws,
            warned (get_dicomfield w tagname dicomfile st).2 = warned st ++ ws ∧
            length ws ≤ 2); [|destruct Hwarned as (ws & ? & ?); eauto 10].
  pose proof (lookup_tag_warned w tagname dicomfile st) as Hw.
  destruct (lookup_tag w tagname dicomfile st) as [[v|e] st1] eqn:Hrun;
    simpl in Hw.
  - rewrite (get_dicomfield_value _ _ _ _ _ _ Hrun). simpl.
    exists []. rewrite app_nil_r. split; [done|simpl; lia].
  - destruct (decide (e = IOError)) as [->|He].
    + rewrite (get_dicomfield_IOError _ _ _ _ _ Hrun). simpl.
      exists [CannotRead dicomfile]. rewrite Hw. split; [done|simpl; lia].
    + destruct (disk w dicomfile) as [content|] eqn:Hdisk.
      * destruct (get_dicomfield_fallback_readable _ _ _ _ _ _ _ Hrun He Hdisk)
          as [_ ->]. rewrite Hw. eexists. split; [done|].
        rewrite length_app.
        destruct (contains _ content), (first_match _ _) as [group|];
          try destruct (utf8_valid group); simpl; lia.
      * rewrite (get_dicomfield_fallback _ _ _ _ _ _ Hrun He).
        unfold parse_from_x_protocol, is_dicomfile_siemens, open_rb.
        rewrite Hdisk. simpl. rewrite Hw.
        exists [CouldNotExtract tagname dicomfile]. split; [done|simpl; lia].
Qed.

(** * More of the pattern extraction *)

Lemma first_match_Some pattern lines group :
  first_match pattern lines = Some group →
  ∃ i line, lines !! i = Some line ∧ regex_match pattern line = Some group ∧
            ∀ j line', j < i → lines !! j = Some line' →
                       regex_match pattern line' = None.
Proof.
  induction lines as [|l lines IH]; simpl; [done|].
  destruct (regex_match pattern l) as [g|] eqn:Hl.
  - intros [= ->]. exists 0, l. repeat split; [done|]. intros j line' Hj. lia.
  - intros (i & line & Hi & Hm & Hbefore)%IH.
    exists (S i), line. repeat split; [done..|].
    intros [|j] line' Hj Hline'; simpl in *.
    + by injection Hline' as <-.
    + apply (Hbefore j); [lia|done].
Qed.

Lemma decode_encode bs s : decode bs = Ret s → encode s = bs.
Proof.
  unfold decode, encode. destruct (utf8_valid bs); [|done].
  intros [= <-]. apply list_byte_of_string_of_list_byte.
Qed.

(** Every line that the iteration over a file yields has its newline, if
    any, at its end. *)
Lemma readlines_newline_last content line pre post :
  line ∈ readlines content → line = pre ++ x0a :: post → post = [].
Proof.
  revert line pre. induction content as [|b content IH]; intros line pre; simpl.
  - intros H. inversion H.
  - destruct (Byte.eqb b x0a) eqn:Hb.
    + apply Byte.byte_dec_bl in Hb as ->.
      intros [->|Hin]%elem_of_cons; [|by eauto].
      destruct pre as [|c [|c' pre]]; simpl; intros [= ]; subst; try done.
      all: by destruct pre.
    + destruct (readlines content) as [|l lines] eqn:Hlines.
      * intros [->|Hin]%elem_of_cons; [|by inversion Hin].
        destruct pre as [|c pre]; simpl; intros [= ]; subst.
        -- by rewrite byte_eqb_refl in Hb.
        -- by destruct pre.
      * intros [->|Hin]%elem_of_cons.
        -- destruct pre as [|c pre]; simpl; intros [= ]; subst.
           ++ by rewrite byte_eqb_refl in Hb.
           ++ apply (IH (pre ++ x0a :: post) pre); [left|done].
        -- intros ->. apply (IH (pre ++ x0a :: post) pre); [by right|done].
Qed.

(** X11: a text that [parse_from_x_protocol] returns stands in the file:
    the first line that matches is the pattern, a tab, ' = ', a tab, the
    UTF-8 bytes of that text, which hold no newline, and a newline. *)
Theorem parse_from_x_protocol_sound w pattern dicomfile st s :
  regex_literal pattern = true →
  (parse_from_x_protocol w pattern dicomfile st).1 = Ret (PyStr s) →
  ∃ content i,
    disk w dicomfile = Some content ∧
    readlines content !! i
    = Some (encode (pattern +:+ tab +:+ " = " +:+ tab) ++ encode s ++ [x0a]) ∧
    (x0a ∉ encode s) ∧
    (∀ j line', j < i → readlines content !! j = Some line' →
                regex_match pattern line' = None).
Proof.
  intros _. destruct (disk w dicomfile) as [content|] eqn:Hdisk.
  - destruct (parse_from_x_protocol_run w pattern dicomfile st content Hdisk)
      as (st1 & _ & ->).
    destruct (first_match _ _) as [group|] eqn:Hfirst; simpl; [|done].
    destruct (decode group) as [s'|e] eqn:Hdec; simpl; [|done].
    intros [= ->]. apply decode_encode in Hdec as <-.
    apply first_match_Some in Hfirst as (i & line & Hi & Hm & Hbefore).
    apply regex_match_Some in Hm as [Hnl [rest Hline]].
    exists content, i. split; [done|]. split; [|done].
    rewrite Hi. f_equal. rewrite Hline.
    assert (rest = []) as ->; [|done].
    apply (readlines_newline_last content line
             (encode (pattern +:+ tab +:+ " = " +:+ tab) ++ encode s) rest).
    + apply list_elem_of_lookup. eauto.
    + by rewrite <- app_assoc.
  - unfold parse_from_x_protocol, is_dicomfile_siemens, open_rb.
    by rewrite Hdisk.
Qed.

Lemma parse_from_x_protocol_sound_witness :
  (regex_literal "lRepetitions" = true ∧
   (parse_from_x_protocol example_world "lRepetitions" "scan.dcm" initial).1
   = Ret (PyStr "7")) ∧
  ∃ content i,
    disk example_world "scan.dcm" = Some content ∧
    readlines content !! i
    = Some (encode ("lRepetitions" +:+ tab +:+ " = " +:+ tab)
            ++ encode "7" ++ [x0a]) ∧
    (x0a ∉ encode "7") ∧
    (∀ j line', j < i → readlines content !! j = Some line' →
                regex_match "lRepetitions" line' = None).
Proof.
  assert (H : (parse_from_x_protocol example_world "lRepetitions" "scan.dcm"
                 initial).1 = Ret (PyStr "7")) by (by vm_compute).
  split; [by split|].
  exact (parse_from_x_protocol_sound example_world "lRepetitions" "scan.dcm"
           initial "7" eq_refl H).
Defined.

Lemma regex_match_no_newline pattern line :
  x0a ∉ line → regex_match pattern line = None.
Proof.
  intros Hnl. destruct (regex_match pattern line) as [group|] eqn:Hm; [|done].
  apply regex_match_Some in Hm as [_ [rest ->]]. exfalso. apply Hnl.
  rewrite !elem_of_app. right. right. left.
Qed.

Lemma readlines_no_newline l :
  x0a ∉ l → readlines l = match l with [] => [] | _ => [l] end.
Proof.
  induction l as [|b l IH]; intros Hnl; simpl; [done|].
  apply not_elem_of_cons in Hnl as [Hb Hl].
  destruct (Byte.eqb b x0a) eqn:Heq;
    [by apply Byte.byte_dec_bl in Heq as ->|].
  rewrite (IH Hl). by destruct l.
Qed.

Lemma readlines_app_newline l r :
  readlines (l ++ x0a :: r) = readlines (l ++ [x0a]) ++ readlines r.
Proof.
  induction l as [|b l IH]; simpl; [done|].
  destruct (Byte.eqb b x0a); [by rewrite IH|].
  rewrite IH. destruct (readlines (l ++ [x0a])) as [|line lines] eqn:Hl; [|done].
  exfalso. assert (H : concat (readlines (l ++ [x0a])) = l ++ [x0a])
    by apply readlines_concat.
  rewrite Hl in H. by destruct l.
Qed.

(** X12: a last line that does not end in a newline is never a match:
    when the lines before it do not match, [parse_from_x_protocol] returns
    [None], even if that last line is the pattern, the separator and a
    value. *)
Theorem parse_from_x_protocol_unterminated w pattern dicomfile st before last :
  regex_literal pattern = true →
  disk w dicomfile = Some (before ++ last) →
  before = [] ∨ (∃ l, before = l ++ [x0a]) →
  x0a ∉ last →
  (∀ line, line ∈ readlines before → regex_match pattern line = None) →
  (parse_from_x_protocol w pattern dicomfile st).1 = Ret PyNone.
Proof.
  intros _ Hdisk Hbefore Hlast Hnone.
  destruct (parse_from_x_protocol_run w pattern dicomfile st _ Hdisk)
    as (st1 & _ & ->).
  rewrite first_match_None; [done|].
  assert (Hlines : readlines (before ++ last)
                   = readlines before ++ readlines last).
  { destruct Hbefore as [->|[l ->]]; [done|].
    rewrite <- app_assoc. simpl. by rewrite readlines_app_newline. }
  rewrite Hlines, (readlines_no_newline last Hlast).
  intros line [Hin|Hin]%elem_of_app; [by apply Hnone|].
  destruct last; [by inversion Hin|].
  apply list_elem_of_singleton in Hin as ->. by apply regex_match_no_newline.
Qed.

Lemma parse_from_x_protocol_unterminated_witness :
  (regex_literal "lRepetitions" = true ∧
   disk export_world "cut.ima"
   = Some (encode ("### ASCCONV BEGIN ###" +:+ newline)
           ++ encode ("lRepetitions" +:+ tab +:+ " = " +:+ tab +:+ "7"))) ∧
  (parse_from_x_protocol export_world "lRepetitions" "cut.ima" initial).1
  = Ret PyNone.
Proof.
  split; [by split|].
  apply (parse_from_x_protocol_unterminated _ "lRepetitions" "cut.ima" initial
           (encode ("### ASCCONV BEGIN ###" +:+ newline))
           (encode ("lRepetitions" +:+ tab +:+ " = " +:+ tab +:+ "7")));
    [reflexivity | reflexivity | | | ].
  - right. by exists (encode "### ASCCONV BEGIN ###").
  - intros H. repeat (apply elem_of_cons in H as [H|H]; [discriminate|]).
    by apply elem_of_nil in H.
  - intros line [->|H]%elem_of_cons; [reflexivity|by apply elem_of_nil in H].
Defined.

(** X13: for a pattern without metacharacters, [parse_from_x_protocol]
    raises [IOError], with no warning, when the file cannot be opened;
    otherwise it warns that the file does not seem to be a Siemens file
    exactly when the bytes lack the marker, then that the pattern was not
    found exactly when no line matches, and nothing else.  It leaves the two
    globals alone and does not call the parser. *)
Theorem parse_from_x_protocol_diagnostics w pattern dicomfile st :
  regex_literal pattern = true →
  same_cache st (parse_from_x_protocol w pattern dicomfile st).2 ∧
  match disk w dicomfile with
  | None => parse_from_x_protocol w pattern dicomfile st = (Raise IOError, st)
  | Some content =>
      warned (parse_from_x_protocol w pattern dicomfile st).2
      = warned st
        ++ (if contains (encode "ASCCONV BEGIN") content
            then [] else [NotSiemens])
        ++ match first_match pattern (readlines content) with
           | Some _ => []
           | None => [PatternNotFound (regexp pattern) dicomfile]
           end
  end.
Proof.
  intros _. split; [apply parse_from_x_protocol_same_cache|].
  destruct (disk w dicomfile) as [content|] eqn:Hdisk.
  - by apply parse_from_x_protocol_warned.
  - unfold parse_from_x_protocol, is_dicomfile_siemens, open_rb.
    by rewrite Hdisk.
Qed.

Lemma parse_from_x_protocol_diagnostics_witness :
  regex_literal "EchoTime" = true ∧
  warned (parse_from_x_protocol example_world "EchoTime" "notes.txt" initial).2
  = [NotSiemens; PatternNotFound (regexp "EchoTime") "notes.txt"] ∧
  warned (parse_from_x_protocol example_world "EchoTime" "scan.dcm" initial).2
  = [PatternNotFound (regexp "EchoTime") "scan.dcm"] ∧
  warned (parse_from_x_protocol example_world "lRepetitions" "scan.dcm"
            initial).2 = [] ∧
  parse_from_x_protocol example_world "EchoTime" "gone.dcm" initial
  = (Raise IOError, initial).
Proof.
  split; [reflexivity|]. split; [|split; [|split]].
  - exact (proj2 (parse_from_x_protocol_diagnostics example_world "EchoTime"
                    "notes.txt" initial eq_refl)).
  - exact (proj2 (parse_from_x_protocol_diagnostics example_world "EchoTime"
                    "scan.dcm" initial eq_refl)).
  - exact (proj2 (parse_from_x_protocol_diagnostics example_world
                    "lRepetitions" "scan.dcm" initial eq_refl)).
  - exact (proj2 (parse_from_x_protocol_diagnostics example_world "EchoTime"
                    "gone.dcm" initial eq_refl)).
Defined.

(** * The Siemens marker *)

Lemma starts_with_prefix prefix l :
  starts_with prefix l = true ↔ ∃ rest, l = prefix ++ rest.
Proof.
  revert l. induction prefix as [|a prefix IH]; intros l; simpl.
  - split; [eauto|done].
  - destruct l as [|b l]; [split; [done|by intros [? ?]]|].
    rewrite andb_true_iff, IH. split.
    + intros [Hab [rest ->]]. apply Byte.byte_dec_bl in Hab as ->. eauto.
    + intros [rest [= -> ->]]. split; [apply byte_eqb_refl|eauto].
Qed.

Lemma contains_infix needle haystack :
  contains needle haystack = true ↔
  ∃ before after, haystack = before ++ needle ++ after.
Proof.
  induction haystack as [|b haystack IH]; simpl.
  - rewrite orb_false_r, starts_with_prefix. split.
    + intros [rest H]. exists [], rest. done.
    + intros (before & after & H). destruct before; [eauto|done].
  - rewrite orb_true_iff, starts_with_prefix, IH. split.
    + intros [[rest H]|(before & after & ->)].
      * exists [], rest. done.
      * by exists (b :: before), after.
    + intros (before & after & H). destruct before as [|c before].
      * left. eauto.
      * right. injection H as -> ->. eauto.
Qed.

(** X14: [is_dicomfile_siemens] returns [True] exactly when the file can
    be opened and the bytes ['ASCCONV BEGIN'] stand somewhere in it; it raises
    [IOError] when the file cannot be opened. *)
Theorem is_dicomfile_siemens_marker w file :
  (is_dicomfile_siemens w file = Ret true ↔
   ∃ before after,
     disk w file = Some (before ++ encode "ASCCONV BEGIN" ++ after)) ∧
  (is_dicomfile_siemens w file = Raise IOError ↔ disk w file = None).
Proof.
  unfold is_dicomfile_siemens, open_rb.
  destruct (disk w file) as [content|]; simpl.
  - split; [|done]. split.
    + intros [= H]. apply contains_infix in H as (before & after & ->). eauto.
    + intros (before & after & [= ->]). f_equal. apply contains_infix. eauto.
  - split; [|done]. split; [done|]. by intros (? & ? & ?).
Qed.

(** * The file tests and the search of a folder *)

Lemma take_drop_magic (content magic : list byte) (n : nat) :
  magic ≠ [] →
  take (length magic) (drop n content) = magic ↔
  ∃ before after, length before = n ∧ content = before ++ magic ++ after.
Proof.
  intros Hmagic. split.
  - intros H. exists (take n content), (drop (length magic) (drop n content)).
    assert (Hlen : n < length content).
    { destruct (decide (n < length content)) as [|Hge]; [done|].
      rewrite drop_ge in H by lia. by destruct magic. }
    split; [rewrite length_take; lia|].
    rewrite <- H at 1. by rewrite !take_drop.
  - intros (before & after & <- & ->).
    rewrite drop_app_length. by rewrite take_app_length.
Qed.

(** X15: [is_dicomfile] returns [True] exactly for a regular file that has
    the four bytes ['DICM'] after 128 other bytes; for a path that is not a
    regular file it returns [None] without opening anything, and for a
    regular file of fewer than 132 bytes it returns [False]. *)
Theorem is_dicomfile_magic fs w file :
  (is_dicomfile fs w file = Ret (Some true) ↔
   isfile fs file = true ∧
   ∃ preamble rest,
     length preamble = 128 ∧
     disk w file = Some (preamble ++ encode "DICM" ++ rest)) ∧
  (isfile fs file = false → is_dicomfile fs w file = Ret None) ∧
  (∀ content, isfile fs file = true → disk w file = Some content →
              length content < 132 →
              is_dicomfile fs w file = Ret (Some false)).
Proof.
  unfold is_dicomfile, open_rb. split; [|split].
  - destruct (isfile fs file); [|split; [done|by intros [? _]]].
    destruct (disk w file) as [content|]; simpl.
    + split.
      * intros [= H]. apply bool_decide_eq_true in H. split; [done|].
        apply (take_drop_magic content (encode "DICM") 128) in H
          as (before & after & Hlen & ->); [eauto|done].
      * intros [_ (preamble & rest & Hlen & [= ->])]. do 2 f_equal.
        apply bool_decide_eq_true.
        apply (take_drop_magic _ (encode "DICM") 128); [done|eauto].
    + split; [done|]. by intros [_ (? & ? & _ & ?)].
  - by intros ->.
  - intros content -> -> Hlen. simpl. do 2 f_equal.
    apply bool_decide_eq_false. intros H.
    apply (f_equal length) in H. rewrite length_take, length_drop in H.
    change (length (encode "DICM")) with 4 in H. lia.
Qed.

Lemma first_file_Some test folder files path :
  first_file test folder files = Ret (Some path) →
  ∃ i file,
    files !! i = Some file ∧ path = join folder file ∧
    test file = Ret (Some true) ∧
    ∀ j file', j < i → files !! j = Some file' →
               ∃ x, test file' = Ret x ∧ truthy x = false.
Proof.
  induction files as [|f files IH]; simpl; [done|].
  destruct (test f) as [x|e] eqn:Hf; simpl; [|done].
  destruct (truthy x) eqn:Hx.
  - intros [= <-]. exists 0, f. split; [done|]. split; [done|].
    split; [by destruct x as [[]|]|]. intros; lia.
  - intros (i & file & Hi & -> & Htest & Hbefore)%IH.
    exists (S i), file. repeat split; [done..|].
    intros [|j] file' Hj Hfile'; simpl in *.
    + injection Hfile' as <-. eauto.
    + apply (Hbefore j); [lia|done].
Qed.

Lemma first_file_None test folder files :
  first_file test folder files = Ret None →
  ∀ file, file ∈ files → ∃ x, test file = Ret x ∧ truthy x = false.
Proof.
  induction files as [|f files IH]; simpl; [by intros _ ? ?%elem_of_nil|].
  destruct (test f) as [x|e] eqn:Hf; simpl; [|done].
  destruct (truthy x) eqn:Hx; [done|].
  intros H file [->|Hin]%elem_of_cons; [eauto|by apply IH].
Qed.

Lemma first_file_never test folder files :
  (∀ file x, test file = Ret x → truthy x = false) →
  ∀ found, first_file test folder files = Ret found → found = None.
Proof.
  intros Hnever. induction files as [|f files IH]; simpl; [by intros ? [= <-]|].
  destruct (test f) as [x|e] eqn:Hf; simpl; [|done].
  by rewrite (Hnever f x Hf).
Qed.

Lemma search_run (files : outcome (list string))
    (search : list string → outcome (option string)) (x : notice)
    (log log' : list notice) (r : option string) :
  (files' ← lift files; found ← lift (search files'); found_or_warn found x) log
  = (Ret r, log') →
  ∃ l found, files = Ret l ∧ search l = Ret found ∧
    match found with
    | Some path => r = Some path ∧ log' = log
    | None => r = None ∧ log' = log ++ [x]
    end.
Proof.
  unfold mbind, M_bind, lift.
  destruct files as [l|e]; simpl; [|done].
  destruct (search l) as [[path|]|e] eqn:Hs; simpl; [| |done];
    intros [= <- <-].
  - by exists l, (Some path).
  - by exists l, None.
Qed.

(** X16: [get_dicom_file] returns the path of the first entry of the
    folder, in the order of [os.listdir], that [is_dicomfile] accepts once
    joined to the folder, and warns of nothing; it returns [None], with the
    warning that no DICOM file was found, when it accepts none. *)
Theorem get_dicom_file_first fs w folder log r log' :
  get_dicom_file fs w folder log = (Ret r, log') →
  ∃ files,
    listdir fs folder = Ret files ∧
    match r with
    | Some path =>
        log' = log ∧
        ∃ i file,
          files !! i = Some file ∧ path = join folder file ∧
          is_dicomfile fs w path = Ret (Some true) ∧
          ∀ j file', j < i → files !! j = Some file' →
            is_dicomfile fs w (join folder file') = Ret (Some false) ∨
            is_dicomfile fs w (join folder file') = Ret None
    | None =>
        log' = log ++ [CannotFindDicom folder] ∧
        ∀ file, file ∈ files →
          is_dicomfile fs w (join folder file) = Ret (Some false) ∨
          is_dicomfile fs w (join folder file) = Ret None
    end.
Proof.
  intros (files & found & Hfiles & Hsearch & Hr)%search_run.
  exists files. split; [done|]. destruct found as [path|].
  - destruct Hr as [-> ->]. split; [done|].
    apply first_file_Some in Hsearch as (i & file & Hi & -> & Htest & Hbefore).
    exists i, file. repeat split; [done..|].
    intros j file' Hj Hfile'.
    destruct (Hbefore j file' Hj Hfile') as ([[]|] & -> & Hx); auto; done.
  - destruct Hr as [-> ->]. split; [done|]. intros file Hin.
    destruct (first_file_None _ _ _ Hsearch file Hin) as ([[]|] & -> & Hx);
      auto; done.
Qed.

Lemma get_dicom_file_first_witness :
  get_dicom_file session_folders session_world "/data/ses" []
  = (Ret (Some "/data/ses/0001.dcm"), []) ∧
  ∃ files,
    listdir session_folders "/data/ses" = Ret files ∧
    ([] : list notice) = [] ∧
    ∃ i file,
      files !! i = Some file ∧ "/data/ses/0001.dcm" = join "/data/ses" file ∧
      is_dicomfile session_folders session_world "/data/ses/0001.dcm"
      = Ret (Some true) ∧
      ∀ j file', j < i → files !! j = Some file' →
        is_dicomfile session_folders session_world (join "/data/ses" file')
        = Ret (Some false) ∨
        is_dicomfile session_folders session_world (join "/data/ses" file')
        = Ret None.
Proof.
  assert (H : get_dicom_file session_folders session_world "/data/ses" []
              = (Ret (Some "/data/ses/0001.dcm"), [])) by (by vm_compute).
  split; [exact H|].
  exact (get_dicom_file_first session_folders session_world "/data/ses" []
           (Some "/data/ses/0001.dcm") [] H).
Defined.

Lemma never_a_file fs w (test : folders → world → string → outcome (option bool)) :
  (∀ file, test fs w file
           = if isfile fs file then _ ← open_rb w file; Ret (Some false)
             else Ret None) →
  ∀ file x, test fs w file = Ret x → truthy x = false.
Proof.
  intros Htest file x. rewrite Htest.
  destruct (isfile fs file); [|by intros [= <-]].
  destruct (open_rb w file); simpl; [by intros [= <-]|done].
Qed.

(** X17: [get_par_file], [get_p7_file] and [get_nifti_file] never return
    a path: whenever one of them returns, it returns [None] and has warned
    once that no file of its kind was found in the folder. *)
Theorem get_par_p7_nifti_file_none fs w folder log r log' :
  (get_par_file fs w folder log = (Ret r, log') →
   r = None ∧ log' = log ++ [CannotFindPAR folder]) ∧
  (get_p7_file fs w folder log = (Ret r, log') →
   r = None ∧ log' = log ++ [CannotFindP7 folder]) ∧
  (get_nifti_file fs w folder log = (Ret r, log') →
   r = None ∧ log' = log ++ [CannotFindNifti folder]).
Proof.
  split; [|split].
  all: intros (files & found & _ & Hsearch & Hr)%search_run.
  all: apply first_file_never in Hsearch as ->;
    [by destruct Hr | by apply never_a_file].
Qed.

Lemma get_par_p7_nifti_file_none_witness :
  get_par_file session_folders session_world "/data/ses" []
  = (Ret None, [CannotFindPAR "/data/ses"]) ∧
  None = (None : option string) ∧
  [CannotFindPAR "/data/ses"] = [] ++ [CannotFindPAR "/data/ses"].
Proof.
  assert (H : get_par_file session_folders session_world "/data/ses" []
              = (Ret None, [CannotFindPAR "/data/ses"])) by (by vm_compute).
  split; [exact H|].
  exact (proj1 (get_par_p7_nifti_file_none session_folders session_world
                  "/data/ses" [] None [CannotFindPAR "/data/ses"]) H).
Defined.

(** * Where [get_heuristics] looks *)

Lemma has_char_app c a b :
  has_char c (a +:+ b) = has_char c a || has_char c b.
Proof. induction a as [|c' a IH]; simpl; [done|]. by rewrite IH, orb_assoc. Qed.

Lemma rsplit_None sep p : rsplit sep p = None ↔ has_char sep p = false.
Proof.
  induction p as [|c p IH]; simpl; [done|].
  destruct (rsplit sep p) as [[before after]|].
  - split; [done|]. intros [_ H]%orb_false_iff. by apply IH in H.
  - rewrite (proj1 IH eq_refl), orb_false_r. by destruct (Ascii.eqb c sep).
Qed.

Lemma rsplit_Some sep p before after :
  rsplit sep p = Some (before, after) ↔
  p = before +:+ String sep after ∧ has_char sep after = false.
Proof.
  revert before. induction p as [|c p IH]; intros before; simpl.
  - split; [done|]. intros [H _]. by destruct before.
  - destruct (rsplit sep p) as [[b a]|] eqn:Hp.
    + split.
      * intros [= <- <-]. destruct (proj1 (IH b) eq_refl) as [-> Ha]. done.
      * intros [H Ha]. destruct before as [|c' before]; simpl in H.
        -- injection H as -> ->. apply (proj2 (rsplit_None sep _)) in Ha.
           congruence.
        -- injection H as -> H.
           by pose proof (proj2 (IH before) (conj H Ha)) as [= -> ->].
    + apply rsplit_None in Hp. split.
      * destruct (Ascii.eqb_spec c sep) as [->|]; [|done]. by intros [= <- <-].
      * intros [H Ha]. destruct before as [|c' before]; simpl in H.
        -- injection H as -> ->. by rewrite Ascii.eqb_refl.
        -- injection H as -> ->. rewrite has_char_app in Hp. simpl in Hp.
           rewrite Ascii.eqb_refl, orb_true_r in Hp. done.
Qed.

Lemma length_append a b :
  String.length (a +:+ b) = String.length a + String.length b.
Proof. induction a as [|c a IH]; simpl; [done|]. by rewrite IH. Qed.

(** Line 293 asks whether the name has no slash. *)
Lemma basename_same p :
  String.eqb (basename p) p = negb (has_char "/" p).
Proof.
  unfold basename. destruct (rsplit "/" p) as [[before after]|] eqn:Hp.
  - apply rsplit_Some in Hp as [-> Ha].
    rewrite has_char_app. simpl. rewrite orb_true_r. simpl.
    apply String.eqb_neq. intros H. apply (f_equal String.length) in H.
    rewrite length_append in H. simpl in H. lia.
  - apply rsplit_None in Hp as ->. apply String.eqb_refl.
Qed.

Lemma extension_no_slash p : has_char "/" (extension p) = false.
Proof.
  unfold extension, basename.
  destruct (rsplit "/" p) as [[before after]|] eqn:Hp.
  - apply rsplit_Some in Hp as [-> Ha].
    destruct (rsplit "." after) as [[stem ext]|] eqn:He; [|done].
    apply rsplit_Some in He as [-> _]. rewrite has_char_app in Ha.
    apply orb_false_iff in Ha as [_ Ha]. simpl in Ha.
    destruct (all_dots stem); done.
  - apply rsplit_None in Hp.
    destruct (rsplit "." p) as [[stem ext]|] eqn:He; [|done].
    apply rsplit_Some in He as [-> _]. rewrite has_char_app in Hp.
    apply orb_false_iff in Hp as [_ Hp]. simpl in Hp.
    destruct (all_dots stem); done.
Qed.

Lemma with_yaml_slash yamlfile :
  has_char "/" (with_yaml yamlfile) = has_char "/" yamlfile.
Proof.
  unfold with_yaml. destruct (is_empty (extension yamlfile)); [|done].
  rewrite has_char_app. simpl. by rewrite orb_false_r.
Qed.

Lemma heuristics_file_location module_file yamlfile folder :
  heuristics_file module_file yamlfile folder
  = if has_char "/" yamlfile then with_yaml yamlfile
    else join (join (dirname (folder_or_module module_file folder))
                    "heuristics")
              (with_yaml yamlfile).
Proof.
  unfold heuristics_file. fold (with_yaml yamlfile).
  fold (folder_or_module module_file folder).
  rewrite basename_same, with_yaml_slash.
  by destruct (has_char "/" yamlfile).
Qed.

Lemma ends_with_slash_app a b :
  is_empty b = false → ends_with_slash (a +:+ b) = ends_with_slash b.
Proof.
  intros Hb. induction a as [|c a IH]; simpl; [done|].
  rewrite IH. destruct (a +:+ b) eqn:Hab; [|done].
  destruct a, b; done.
Qed.

Lemma rstrip_slash_app d :
  ends_with_slash d = false → rstrip_slash (d +:+ "/") = d.
Proof.
  induction d as [|c d IH]; simpl; [done|].
  destruct d as [|c' d].
  - simpl. intros ->. done.
  - intros H. rewrite (IH H). simpl. done.
Qed.

Lemma dirname_sibling d name :
  is_empty d = false → ends_with_slash d = false →
  has_char "/" name = false →
  dirname (d +:+ "/" +:+ name) = d.
Proof.
  intros Hd Hslash Hname. unfold dirname.
  rewrite (proj2 (rsplit_Some "/" (d +:+ "/" +:+ name) d name)) by done.
  rewrite (rstrip_slash_app d Hslash). by rewrite Hd.
Qed.

Lemma append_assoc (a b c : string) : (a +:+ b) +:+ c = a +:+ (b +:+ c).
Proof.
  induction a as [|x a IH]; [done|].
  change (String x ((a +:+ b) +:+ c) = String x (a +:+ (b +:+ c))).
  by f_equal.
Qed.

Lemma join_heuristics d yamlfile :
  is_empty d = false → ends_with_slash d = false →
  starts_with_slash yamlfile = false →
  join (join d "heuristics") yamlfile = d +:+ "/heuristics/" +:+ yamlfile.
Proof.
  intros Hd Hslash Hy. unfold join. simpl. rewrite Hd, Hslash, Hy. simpl.
  change ("/" +:+ "heuristics") with "/heuristics".
  rewrite ends_with_slash_app by done.
  assert (is_empty (d +:+ "/heuristics") = false) as -> by (by destruct d).
  simpl. by rewrite append_assoc.
Qed.

(** X18: a name with a slash is opened as given, with ['.yaml'] added if
    it has no extension, whatever [folder] is; a name without a slash is
    looked up in the ['heuristics'] folder that stands beside the last
    component of [folder]: for a folder [d/name], and for [d/] as well, that
    is [d/heuristics]. *)
Theorem get_heuristics_location {H : Type} (env : loader H)
    (yamlfile d name : string) (folder : option string) :
  (has_char "/" yamlfile = true →
   get_heuristics env yamlfile folder
   = yaml_load env (abspath_expanduser env (with_yaml yamlfile))) ∧
  (has_char "/" yamlfile = false →
   is_empty d = false → ends_with_slash d = false →
   has_char "/" name = false →
   get_heuristics env yamlfile (Some (d +:+ "/" +:+ name))
   = yaml_load env
       (abspath_expanduser env (d +:+ "/heuristics/" +:+ with_yaml yamlfile))).
Proof.
  unfold get_heuristics. split.
  - intros Hy. by rewrite heuristics_file_location, Hy.
  - intros Hy Hd Hslash Hname. rewrite heuristics_file_location, Hy.
    assert (Hfolder : folder_or_module (module_file env)
                        (Some (d +:+ "/" +:+ name)) = d +:+ "/" +:+ name).
    { simpl. by destruct d. }
    rewrite Hfolder, (dirname_sibling d name Hd Hslash Hname).
    do 2 f_equal. apply join_heuristics; [done..|].
    pose proof (with_yaml_slash yamlfile) as Hw. rewrite Hy in Hw.
    destruct (with_yaml yamlfile); simpl in *; [done|].
    by apply orb_false_iff in Hw as [-> _].
Qed.

Lemma get_heuristics_location_witness :
  (has_char "/" "bidsmap" = false ∧ is_empty "/opt/bidscoin" = false ∧
   ends_with_slash "/opt/bidscoin" = false ∧ has_char "/" "bids.py" = false) ∧
  get_heuristics example_loader "bidsmap" (Some "/opt/bidscoin/bids.py")
  = Ret "the heuristics".
Proof.
  split; [by repeat split|].
  exact (proj2 (get_heuristics_location example_loader "bidsmap"
                  "/opt/bidscoin" "bids.py" None)
               eq_refl eq_refl eq_refl eq_refl).
Defined.

(** X19: [get_heuristics] adds ['.yaml'] to the name exactly when the name
    has no extension: its last component has no dot, or nothing but dots
    before its last dot (a hidden file); a name that ends in a dot is left as
    it is. *)
Theorem get_heuristics_suffix (yamlfile : string) :
  (has_extension yamlfile → with_yaml yamlfile = yamlfile) ∧
  (¬ has_extension yamlfile → with_yaml yamlfile = yamlfile +:+ ".yaml").
Proof.
  unfold with_yaml, extension, has_extension.
  destruct (rsplit "." (basename yamlfile)) as [[stem rest]|] eqn:Hsplit.
  - apply rsplit_Some in Hsplit as Hname. destruct Hname as [Hname Hrest].
    destruct (all_dots stem) eqn:Hstem; simpl.
    + split; [|done]. intros (stem' & rest' & Hname' & Hrest' & Hstem').
      assert (Hsplit' : rsplit "." (basename yamlfile) = Some (stem', rest'))
        by (by apply rsplit_Some).
      congruence.
    + split; [done|]. intros Hno. destruct Hno. by exists stem, rest.
  - apply rsplit_None in Hsplit. simpl. split; [|done].
    intros (stem & rest & Hname & _). rewrite Hname, has_char_app in Hsplit.
    simpl in Hsplit. by rewrite orb_true_r in Hsplit.
Qed.

Lemma get_heuristics_suffix_witness :
  has_extension "maps/bidsmap.v2." ∧ ¬ has_extension "maps.d/.bidsmap" ∧
  with_yaml "maps/bidsmap.v2." = "maps/bidsmap.v2." ∧
  with_yaml "maps.d/.bidsmap" = "maps.d/.bidsmap.yaml".
Proof.
  assert (H1 : has_extension "maps/bidsmap.v2.")
    by (by exists "bidsmap.v2", "").
  assert (H2 : ¬ has_extension "maps.d/.bidsmap").
  { intros (stem & rest & Hname & Hrest & Hstem).
    assert (Hsplit : rsplit "." (basename "maps.d/.bidsmap")
                     = Some (stem, rest)) by (by apply rsplit_Some).
    vm_compute in Hsplit. by injection Hsplit as <- <-. }
  split; [exact H1|]. split; [exact H2|]. split.
  - exact (proj1 (get_heuristics_suffix "maps/bidsmap.v2.") H1).
  - exact (proj2 (get_heuristics_suffix "maps.d/.bidsmap") H2).
Defined.

(** * [cleanup_label] *)

Lemma lstrip_starts_clean label : starts_clean (lstrip label) = true.
Proof.
  induction label as [|c label IH]; simpl; [done|].
  destruct (isspace c) eqn:Hc; [done|]. simpl. by rewrite Hc.
Qed.

Lemma lstrip_clean label : starts_clean label = true → lstrip label = label.
Proof. destruct label as [|c label]; simpl; [done|]. by destruct (isspace c). Qed.

Lemma lstrip_suffix label : ∃ spaces, label = spaces ++ lstrip label.
Proof.
  induction label as [|c label [spaces IH]]; simpl; [by exists []|].
  destruct (isspace c); [|by exists []].
  exists (c :: spaces). simpl. by rewrite <- IH.
Qed.

Lemma strip_clean label :
  starts_clean label = true → starts_clean (rev label) = true →
  strip label = label.
Proof.
  intros H1 H2. unfold strip.
  by rewrite (lstrip_clean label H1), (lstrip_clean _ H2), rev_involutive.
Qed.

Lemma strip_starts_clean label :
  starts_clean (strip label) = true ∧ starts_clean (rev (strip label)) = true.
Proof.
  unfold strip. rewrite rev_involutive. split; [|apply lstrip_starts_clean].
  pose proof (lstrip_starts_clean label) as Hm.
  destruct (lstrip_suffix (rev (lstrip label))) as [spaces Hk].
  apply (f_equal (@rev N)) in Hk. rewrite rev_involutive, rev_app_distr in Hk.
  rewrite Hk in Hm.
  destruct (rev (lstrip (rev (lstrip label)))); [done|exact Hm].
Qed.

Lemma replace_starts_clean special label :
  starts_clean label = true → starts_clean (replace special label) = true.
Proof.
  destruct label as [|c label]; simpl; [done|].
  by destruct (c =? special)%N.
Qed.

Lemma replace_rev special label :
  rev (replace special label) = replace special (rev label).
Proof. unfold replace. by rewrite map_rev. Qed.

Lemma strip_replace_strip special label :
  strip (replace special (strip label)) = replace special (strip label).
Proof.
  destruct (strip_starts_clean label) as [H1 H2].
  apply strip_clean; [by apply replace_starts_clean|].
  rewrite replace_rev. by apply replace_starts_clean.
Qed.

Lemma cleanup_label_map (alnum_beyond : N → bool) (label : list N) :
  cleanup_label alnum_beyond label
  = map (alnum_or_dot alnum_beyond) (strip label).
Proof.
  unfold cleanup_label, special_characters. simpl.
  rewrite !strip_replace_strip.
  unfold replace. rewrite !map_map. apply map_ext. intros c.
  unfold alnum_or_dot, word.
  destruct (N.eqb_spec c 32) as [->|H32]; [reflexivity|].
  destruct (N.eqb_spec c 95) as [->|H95]; [reflexivity|].
  destruct (N.eqb_spec c 45) as [->|H45]; [reflexivity|].
  destruct (N.eqb_spec c 46) as [->|H46]; [reflexivity|].
  apply N.eqb_neq in H32, H45, H46, H95.
  rewrite ?H32, ?H45, ?H46, ?H95, ?orb_false_r. simpl.
  rewrite ?H32, ?H45, ?H46, ?H95, ?orb_false_r. simpl.
  by destruct (isalnum alnum_beyond c).
Qed.

Lemma strip_length label : length (strip label) ≤ length label.
Proof.
  assert (Hl : ∀ l, length (lstrip l) ≤ length l).
  { intros l. destruct (lstrip_suffix l) as [spaces H].
    rewrite H at 2. rewrite length_app. lia. }
  unfold strip. rewrite length_rev.
  etrans; [apply Hl|]. rewrite length_rev. apply Hl.
Qed.

(** X20: [cleanup_label] is: strip the spaces at both ends, then turn
    every character that is not alphanumeric into a dot.  So the result is
    made of alphanumeric characters and dots only (the hyphen and the
    underscore, which the final substitution would keep, are dots by then),
    and it is as long as the stripped label. *)
Theorem cleanup_label_closed_form (alnum_beyond : N → bool) (label : list N) :
  cleanup_label alnum_beyond label
  = map (alnum_or_dot alnum_beyond) (strip label) ∧
  Forall (λ c, c = 46%N ∨ isalnum alnum_beyond c = true)
         (cleanup_label alnum_beyond label) ∧
  length (cleanup_label alnum_beyond label) = length (strip label) ∧
  length (cleanup_label alnum_beyond label) ≤ length label.
Proof.
  rewrite cleanup_label_map, length_map.
  split; [done|]. split; [|split; [done|apply strip_length]].
  apply Forall_map, Forall_true. intros c. unfold alnum_or_dot.
  destruct (isalnum alnum_beyond c) eqn:Hc; auto.
Qed.

Lemma isalnum_not_space (alnum_beyond : N → bool) (c : N) :
  (∀ c, alnum_beyond c = true → isspace c = false) →
  isalnum alnum_beyond c = true → isspace c = false.
Proof.
  intros Htable Hc. destruct (isspace c) eqn:Hs; [|done].
  unfold isspace in Hs. apply bool_decide_eq_true in Hs.
  repeat (apply elem_of_cons in Hs as [->|Hs];
          [first [ discriminate Hc | by apply Htable in Hc ]|]).
  by apply elem_of_nil in Hs.
Qed.

Lemma strip_no_space label :
  Forall (λ c, isspace c = false) label → strip label = label.
Proof.
  intros Hall. apply strip_clean.
  - destruct Hall as [|c label Hc _]; simpl; [done|]. by rewrite Hc.
  - apply Forall_rev in Hall.
    destruct Hall as [|c label' Hc _]; simpl; [done|]. by rewrite Hc.
Qed.

Lemma cleanup_label_clean (alnum_beyond : N → bool) (label : list N) :
  (∀ c, alnum_beyond c = true → isspace c = false) →
  Forall (λ c, c = 46%N ∨ isalnum alnum_beyond c = true) label →
  cleanup_label alnum_beyond label = label.
Proof.
  intros Htable Hl. rewrite cleanup_label_map, strip_no_space.
  - induction Hl as [|c l Hc _ IH]; simpl; [done|]. rewrite IH. f_equal.
    unfold alnum_or_dot. destruct Hc as [Hc|Hc]; [|by rewrite Hc].
    subst c. by destruct (isalnum alnum_beyond 46).
  - eapply Forall_impl; [exact Hl|]. intros c Hc. simpl in Hc.
    destruct Hc as [Hc|Hc]; [by subst c|].
    by apply (isalnum_not_space alnum_beyond).
Qed.

(** X21: where no alphanumeric character is a space, a label made of
    alphanumeric characters and dots is left as it is by [cleanup_label], and
    cleaning a label twice gives what cleaning it once gives. *)
Theorem cleanup_label_idempotent (alnum_beyond : N → bool) (label : list N) :
  (∀ c, alnum_beyond c = true → isspace c = false) →
  (Forall (λ c, c = 46%N ∨ isalnum alnum_beyond c = true) label →
   cleanup_label alnum_beyond label = label) ∧
  cleanup_label alnum_beyond (cleanup_label alnum_beyond label)
  = cleanup_label alnum_beyond label.
Proof.
  intros Htable. split; [by apply cleanup_label_clean|].
  apply cleanup_label_clean; [done|].
  rewrite cleanup_label_map. apply Forall_map, Forall_true. intros c.
  unfold alnum_or_dot. destruct (isalnum alnum_beyond c) eqn:Hc; auto.
Qed.

Lemma cleanup_label_idempotent_witness :
  (∀ c, (λ c : N, (192 <=? c)%N && (c <=? 255)%N) c = true →
        isspace c = false) ∧
  cleanup_label (λ c, (192 <=? c)%N && (c <=? 255)%N)
    (codepoints "Joe.s.reward.task")
  = codepoints "Joe.s.reward.task" ∧
  cleanup_label (λ c, (192 <=? c)%N && (c <=? 255)%N)
    (cleanup_label (λ c, (192 <=? c)%N && (c <=? 255)%N)
       (codepoints "Joe's reward_task"))
  = cleanup_label (λ c, (192 <=? c)%N && (c <=? 255)%N)
      (codepoints "Joe's reward_task").
Proof.
  assert (H : ∀ c, (λ c : N, (192 <=? c)%N && (c <=? 255)%N) c = true →
                   isspace c = false).
  { intros c Hc. apply andb_true_iff in Hc as [H1%N.leb_le H2%N.leb_le].
    unfold isspace. apply bool_decide_eq_false. intros Hin.
    repeat (apply elem_of_cons in Hin as [->|Hin]; [lia|]).
    by apply elem_of_nil in Hin. }
  split; [exact H|]. split.
  - apply (proj1 (cleanup_label_idempotent _ (codepoints "Joe.s.reward.task") H)).
    unfold codepoints. simpl.
    repeat (constructor; [first [by left|by right]|]). constructor.
  - exact (proj2 (cleanup_label_idempotent _ (codepoints "Joe's reward_task") H)).
Defined.

(** The example of the docstring: the apostrophe and the underscore are
    dots in the result, which is not the ['Joes.reward_task'] announced. *)
Example cleanup_label_docstring (alnum_beyond : N → bool) :
  cleanup_label alnum_beyond (codepoints "Joe's reward_task")
  = codepoints "Joe.s.reward.task".
Proof. reflexivity. Qed.
